(** * The Discourse access client of tc-message-service

    A shallow embedding of the service module that relays forum operations
    to the Discourse REST API through a shared axios client, together with
    the properties its specification states about acting identities, request
    bodies, logging and the lazily created client.

    Conventions of the embedding:
    - JavaScript strings are [string]s holding their UTF-8 bytes, so that
      [encodeURIComponent] works byte by byte (a string with a lone
      surrogate, on which the JavaScript function throws, has no UTF-8 form
      and is not represented);
    - numeric ids are integers ([Z]); usernames and the other pass-through
      arguments are JavaScript [value]s, since the code tests some of them
      for truthiness;
    - a promise is represented by the way it settles; every operation runs
      against a [state] that holds the module's [client] variable, the
      logger's output and the requests handed to the transport. *)

From Stdlib Require Import String Ascii ZArith NArith Bool DecimalString DecimalZ.
From stdpp Require Import base option list gmap strings.

Set Warnings "-register-all".

Open Scope string_scope.
Open Scope Z_scope.

(** ** JavaScript values *)

Inductive value :=
| VUndefined
| VNull
| VBool (b : bool)
| VNum (n : Z)
| VStr (s : string)
| VArr (items : list value)
| VObj (fields : gmap string value).

(** [Boolean(v)]: what [if (v)], [v && ...] and [v ? a : b] test. *)
Definition truthy (v : value) : bool :=
  match v with
  | VUndefined | VNull => false
  | VBool b => b
  | VNum n => negb (n =? 0)
  | VStr s => negb (String.eqb s "")
  | VArr _ | VObj _ => true
  end.

(** Decimal rendering of an integer, as a template literal prints it. *)
Definition show_int (n : Z) : string := NilZero.string_of_int (Z.to_int n).

(** [String(v)], the conversion applied to a template literal's holes. *)
Fixpoint to_string (v : value) : string :=
  match v with
  | VUndefined => "undefined"
  | VNull => "null"
  | VBool true => "true"
  | VBool false => "false"
  | VNum n => show_int n
  | VStr s => s
  | VArr items =>
      String.concat ","
        (List.map (fun x => match x with
                            | VUndefined | VNull => ""
                            | _ => to_string x
                            end) items)
  | VObj _ => "[object Object]"
  end.

(** ** Strings: character classes, splitting, percent-encoding *)

Fixpoint str_all (P : ascii -> bool) (s : string) : bool :=
  match s with
  | EmptyString => true
  | String c s' => P c && str_all P s'
  end.

Definition is_not (c : ascii) : ascii -> bool := fun a => negb (Ascii.eqb a c).

Definition is_digit (c : ascii) : bool :=
  let n := N_of_ascii c in ((48 <=? n) && (n <=? 57))%N.

Definition is_int_char (c : ascii) : bool := is_digit c || Ascii.eqb c "-".

(** The characters [encodeURIComponent] leaves alone:
    [A-Z a-z 0-9 - _ . ! ~ * ' ( )]. *)
Definition unreserved (c : ascii) : bool :=
  let n := N_of_ascii c in
  (((65 <=? n) && (n <=? 90)) || ((97 <=? n) && (n <=? 122)))%N
  || is_digit c
  || existsb (Ascii.eqb c) ["-"; "_"; "."; "!"; "~"; "*"; "'"; "("; ")"]%char.

Definition hex_digit (n : N) : ascii :=
  match String.get (N.to_nat n) "0123456789ABCDEF" with
  | Some c => c
  | None => "0"%char
  end.

Definition percent_escape (c : ascii) : string :=
  let n := N_of_ascii c in
  String "%" (String (hex_digit (n / 16)) (String (hex_digit (n mod 16)) "")).

Definition encode_byte (c : ascii) : string :=
  if unreserved c then String c "" else percent_escape c.

Fixpoint encodeURIComponent (s : string) : string :=
  match s with
  | EmptyString => ""
  | String c s' => encode_byte c ++ encodeURIComponent s'
  end.

(** [s.split(c)] for a one-character separator. *)
Fixpoint split_on (c : ascii) (s : string) : list string :=
  match s with
  | EmptyString => [""]
  | String a s' =>
      if Ascii.eqb a c then "" :: split_on c s'
      else match split_on c s' with
           | h :: t => String a h :: t
           | [] => [String a ""]
           end
  end.

(** Cut a string at the first occurrence of [c]. *)
Fixpoint cut (c : ascii) (s : string) : string * string :=
  match s with
  | EmptyString => ("", "")
  | String a s' =>
      if Ascii.eqb a c then ("", s')
      else let '(k, v) := cut c s' in (String a k, v)
  end.

(** The [key=value] entries of a form-encoded body or of a query string.
    An empty string has no entry. *)
Definition form_entries (s : string) : list (string * string) :=
  match s with
  | EmptyString => []
  | _ => List.map (cut "=") (split_on "&" s)
  end.

Definition entries_of (k : string) (es : list (string * string)) : list string :=
  List.map snd (List.filter (fun e => String.eqb (fst e) k) es).

(** The part of a url after its first [?]. *)
Fixpoint query_part (u : string) : option string :=
  match u with
  | EmptyString => None
  | String a u' => if Ascii.eqb a "?" then Some u' else query_part u'
  end.

Definition url_entries (u : string) : list (string * string) :=
  match query_part u with
  | Some q => form_entries q
  | None => []
  end.

(** ** Requests, responses and the logger *)

Inductive method := GET | POST | PUT | DELETE.

(** One part of a [FormData] body. *)
Inductive form_part :=
| Field (name : string) (content : string)
| FileStream (name : string) (path : value) (filename : value) (contentType : value).

Inductive body :=
| NoBody
| Json (v : value)
| Form (s : string)
| Multipart (boundary : string) (parts : list form_part).

(** The per-call configuration object given to an axios method. *)
Record req_config := {
  cfg_params : option (gmap string value);
  cfg_headers : option (gmap string string)
}.

Definition no_config : req_config :=
  {| cfg_params := None; cfg_headers := None |}.

(** The request axios dispatches, after merging the client's defaults. *)
Record request := {
  r_method : method;
  r_baseURL : string;
  r_url : string;
  r_data : body;
  r_headers : gmap string string;
  r_params : gmap string value
}.

Record response := {
  status : Z;
  data : value;
  config : request
}.

(** The error of a rejected call: a reply outside 2xx carries the response,
    a transport failure carries none. *)
Record error := {
  e_config : request;
  e_response : option response
}.

Inductive reply :=
| Reply (code : Z) (payload : value)
| NoReply.

Inductive level := Debug | Info | Error.

Inductive log_arg :=
| LText (s : string)
| LValue (v : value)
| LError (e : error).

Record log_entry := { lvl : level; args : list log_arg }.

(** A settled promise. *)
Inductive promise (A : Type) :=
| Fulfilled (a : A)
| Rejected (e : error).
Arguments Fulfilled {A} a.
Arguments Rejected {A} e.

Definition is_rejected {A} (p : promise A) : bool :=
  match p with Rejected _ => true | Fulfilled _ => false end.

(** [p.then(f)] for a handler without effects. *)
Definition then_ {A B} (p : promise A) (f : A -> B) : promise B :=
  match p with
  | Fulfilled a => Fulfilled (f a)
  | Rejected e => Rejected e
  end.

(** ** The module's state *)

Inductive interceptor := LoggingInterceptor.

(** The axios instance as the module configures it. *)
Record axios_client := {
  baseURL : string;
  default_params : gmap string value;
  response_interceptors : list interceptor
}.

Record state := {
  client : option axios_client;
  log : list log_entry;
  sent : list request
}.

Definition initial_state : state :=
  {| client := None; log := []; sent := [] |}.

Definition M (A : Type) : Type := state -> A * state.

Definition ret {A} (a : A) : M A := fun st => (a, st).

Definition bind {A B} (m : M A) (k : A -> M B) : M B :=
  fun st => let '(a, st') := m st in k a st'.

Notation "'let*' x ':=' m 'in' k" := (bind m (fun x => k))
  (at level 10, x name, m at level 100, k at level 200).
Notation "m ;; k" := (bind m (fun _ => k))
  (at level 100, k at level 200, right associativity).

Definition logger (l : level) (a : list log_arg) : M unit :=
  fun st => (tt, {| client := client st;
                    log := log st ++ [{| lvl := l; args := a |}];
                    sent := sent st |}).

Definition transmit (r : request) : M unit :=
  fun st => (tt, {| client := client st; log := log st; sent := sent st ++ [r] |}).

(** [p.catch(h)]: the handler may log. *)
Definition catch_ {A} (p : promise A) (h : error -> M (promise A)) : M (promise A) :=
  match p with
  | Fulfilled a => ret (Fulfilled a)
  | Rejected e => h e
  end.

(** What an operation hands back to its caller. *)
Inductive result :=
| Payload (v : value)
| Response (r : response).

(** The file descriptor [uploadImage] receives. *)
Record file := {
  path : value;
  originalname : value;
  mimetype : value
}.

(** The environment of the module: the configuration entries it reads, the
    administrator check of the application's [util] module, the forum at
    the other end of the transport and the boundary [FormData] generates. *)
Record env := {
  discourseURL : string;
  discourseApiKey : value;
  discourseSystemUsername : string;
  isDiscourseAdmin : value -> bool;
  upstream : request -> reply;
  getBoundary : file -> string
}.

Section Discourse.

Variable E : env.

Definition DISCOURSE_SYSTEM_USERNAME : string := discourseSystemUsername E.

(** ** The axios client

    What the module relies on from axios: [get] and [delete] take
    [(url, config)], [post] and [put] take [(url, data, config)]; the
    per-call configuration is merged over the instance defaults, a
    per-call parameter overriding the default of the same name; a reply
    whose status is outside 200..299 rejects the call; the response
    interceptors then run on the settled call. *)

Definition validateStatus (s : Z) : bool := (200 <=? s) && (s <? 300).

(** How the call for [r] settles on the forum's answer [a]. *)
Definition settle (r : request) (a : reply) : promise response :=
  match a with
  | Reply code payload =>
      let res := {| status := code; data := payload; config := r |} in
      if validateStatus code then Fulfilled res
      else Rejected {| e_config := r; e_response := Some res |}
  | NoReply => Rejected {| e_config := r; e_response := None |}
  end.

Definition dispatchRequest (r : request) : M (promise response) :=
  transmit r ;;
  ret (settle r (upstream E r)).

(** [_.pick(res, ['config.url', 'status'])] *)
Definition pick_success (res : response) : value :=
  VObj {[ "config" := VObj {[ "url" := VStr (r_url (config res)) ]};
          "status" := VNum (status res) ]}.

(** [_.pick(error, ['config.url', 'response.status', 'response.data'])] *)
Definition pick_failure (e : error) : value :=
  VObj (match e_response e with
        | Some res =>
            {[ "config" := VObj {[ "url" := VStr (r_url (e_config e)) ]};
               "response" := VObj {[ "status" := VNum (status res);
                                     "data" := data res ]} ]}
        | None => {[ "config" := VObj {[ "url" := VStr (r_url (e_config e)) ]} ]}
        end).

(** The pair of handlers [getClient] registers with
    [client.interceptors.response.use]. *)
Definition run_interceptor (i : interceptor) (p : promise response)
  : M (promise response) :=
  match i, p with
  | LoggingInterceptor, Fulfilled res =>
      logger Info [LText "SUCCESS"; LValue (pick_success res)] ;;
      ret (Fulfilled res)
  | LoggingInterceptor, Rejected e =>
      logger Error [LText "Discourse call failed: "; LValue (pick_failure e)] ;;
      ret (Rejected e)
  end.

Fixpoint run_interceptors (l : list interceptor) (p : promise response)
  : M (promise response) :=
  match l with
  | [] => ret p
  | i :: l' => let* p' := run_interceptor i p in run_interceptors l' p'
  end.

Definition merge_params (c : axios_client) (cfg : req_config) : gmap string value :=
  match cfg_params cfg with
  | Some p => p ∪ default_params c
  | None => default_params c
  end.

Definition axios_request (c : axios_client) (m : method) (u : string)
    (d : body) (cfg : req_config) : M (promise response) :=
  let r := {| r_method := m;
              r_baseURL := baseURL c;
              r_url := u;
              r_data := d;
              r_headers := default ∅ (cfg_headers cfg);
              r_params := merge_params c cfg |} in
  let* p := dispatchRequest r in
  run_interceptors (response_interceptors c) p.

Definition axios_get (c : axios_client) (u : string) (cfg : req_config) :=
  axios_request c GET u NoBody cfg.

(** [delete] declares the formals [(url, config)] only: whatever a caller
    passes after them ([surplus]) is bound to nothing. *)
Definition axios_delete (c : axios_client) (u : string) (cfg : req_config)
    (surplus : list req_config) :=
  axios_request c DELETE u NoBody cfg.

Definition axios_post (c : axios_client) (u : string) (d : body) (cfg : req_config) :=
  axios_request c POST u d cfg.

Definition axios_put (c : axios_client) (u : string) (d : body) (cfg : req_config) :=
  axios_request c PUT u d cfg.

(** ** The service *)

(** The client [getClient] sets up on its first call. *)
Definition configured_client : axios_client :=
  {| baseURL := discourseURL E;
     default_params := {[ "api_key" := discourseApiKey E;
                          "api_username" := VStr DISCOURSE_SYSTEM_USERNAME ]};
     response_interceptors := [LoggingInterceptor] |}.

Definition getClient : M axios_client :=
  fun st =>
    match client st with
    | Some c => (c, st)
    | None =>
        (configured_client,
         {| client := Some configured_client; log := log st; sent := sent st |})
    end.

Definition with_params (p : gmap string value) : req_config :=
  {| cfg_params := Some p; cfg_headers := None |}.

Definition getUser (username : value) : M (promise value) :=
  let* c := getClient in
  let* p := axios_get c ("/users/" ++ to_string username
                         ++ ".json?api_username=" ++ to_string username)
                      no_config in
  ret (then_ p data).

Definition createUser (name : value) (userId : value) (handle : value)
    (email : value) (password : value) : M (promise response) :=
  logger Debug [LText "Creating user in discourse:"; LValue name;
                LValue userId; LValue handle] ;;
  let* c := getClient in
  axios_post c "/users"
    (Json (VObj {[ "name" := name;
                   "username" := userId;
                   "email" := email;
                   "password" := password;
                   "active" := VBool true;
                   "user_fields" := VObj {[ "1" := handle ]} ]}))
    no_config.

Definition createPrivatePost (title : value) (post : value) (users : value)
    (owner : value) : M (promise response) :=
  let* c := getClient in
  let* p := axios_post c "/posts"
    (Json (VObj {[ "archetype" := VStr "private_message";
                   "target_usernames" := users;
                   "title" := title;
                   "raw" := post ]}))
    (with_params
       {[ "api_username" :=
            if truthy owner && negb (isDiscourseAdmin E owner)
            then owner else VStr DISCOURSE_SYSTEM_USERNAME ]}) in
  catch_ p (fun err =>
    logger Error [LText "Error creating topic"] ;;
    logger Error [LError err] ;;
    ret (Rejected err)).

Definition getTopic (topicId : Z) (username : value) : M (promise value) :=
  logger Debug [LText ("Retrieving topic# " ++ show_int topicId
                       ++ " for user: " ++ to_string username)] ;;
  let* c := getClient in
  let* p := axios_get c ("/t/" ++ show_int topicId ++ ".json?include_raw=1")
    (with_params
       {[ "api_username" :=
            if isDiscourseAdmin E username
            then VStr DISCOURSE_SYSTEM_USERNAME else username ]}) in
  ret (then_ p data).

Definition updateTopic (username : value) (topicId : Z) (title : value)
  : M (promise response) :=
  logger Debug [LText ("Update topic# " ++ show_int topicId
                       ++ " for user: " ++ to_string username)] ;;
  let* c := getClient in
  axios_put c ("/t/" ++ show_int topicId ++ ".json")
    (Json (VObj {[ "topic_id" := VNum topicId; "title" := title ]}))
    (with_params
       {[ "api_username" :=
            if isDiscourseAdmin E username
            then VStr DISCOURSE_SYSTEM_USERNAME else username ]}).

Definition deleteTopic (username : value) (topicId : Z) : M (promise response) :=
  let* c := getClient in
  axios_delete c ("/t/" ++ show_int topicId ++ ".json") no_config
    [with_params
       {[ "api_username" :=
            if isDiscourseAdmin E username
            then VStr DISCOURSE_SYSTEM_USERNAME else username ]}].

Definition grantAccess (userName : value) (topicId : Z) (invitee : value)
  : M (promise response) :=
  let invitee := match invitee with VUndefined => VStr "system" | _ => invitee end in
  let* c := getClient in
  axios_post c ("/t/" ++ show_int topicId ++ "/invite")
    (Json (VObj {[ "user" := userName ]}))
    (with_params {[ "api_username" := invitee ]}).

Definition createPost (username : value) (post : string) (discourseTopicId : Z)
    (responseTo : value) : M (promise response) :=
  let data := "topic_id=" ++ show_int discourseTopicId
              ++ "&raw=" ++ encodeURIComponent post in
  let data := if truthy responseTo
              then data ++ "&reply_to_post_number=" ++ to_string responseTo
              else data in
  let* c := getClient in
  axios_post c "/posts" (Form data)
    (with_params
       {[ "api_username" :=
            if isDiscourseAdmin E username
            then VStr DISCOURSE_SYSTEM_USERNAME else username ]}).

Definition getPost (username : value) (postId : Z) : M (promise response) :=
  logger Debug [LText "Attempting to retrieve post"; LValue (VNum postId)] ;;
  let* c := getClient in
  axios_get c ("/posts/" ++ show_int postId ++ ".json?")
    (with_params
       {[ "api_username" :=
            if isDiscourseAdmin E username
            then VStr DISCOURSE_SYSTEM_USERNAME else username ]}).

(** The loop of [getPosts] over [postIds]; the state is the pair
    [(postIdsFilter, separator)]. *)
Definition postIdsFilter_loop (postIds : list Z) : string * string :=
  fold_left
    (fun '(postIdsFilter, separator) postId =>
       (postIdsFilter ++ separator ++ encodeURIComponent "post_ids[]"
          ++ "=" ++ show_int postId,
        "&"))
    postIds ("", "").

Definition getPosts (username : value) (topicId : Z) (postIds : list Z)
  : M (promise response) :=
  logger Debug [LText "Attempting to retrieve posts";
                LValue (VArr (List.map VNum postIds))] ;;
  let postIdsFilter := fst (postIdsFilter_loop postIds) in
  let* c := getClient in
  axios_get c ("/t/" ++ show_int topicId ++ "/posts.json?include_raw=1&"
               ++ postIdsFilter)
    (with_params
       {[ "api_username" :=
            if isDiscourseAdmin E username
            then VStr DISCOURSE_SYSTEM_USERNAME else username ]}).

Definition updatePost (username : value) (postId : Z) (body : value)
  : M (promise response) :=
  let* c := getClient in
  axios_put c ("/posts/" ++ show_int postId ++ ".json")
    (Json (VObj {[ "post" := VObj {[ "raw" := body ]} ]}))
    (with_params
       {[ "api_username" :=
            if isDiscourseAdmin E username
            then VStr DISCOURSE_SYSTEM_USERNAME else username ]}).

Definition deletePost (username : value) (postId : Z) : M (promise response) :=
  let* c := getClient in
  axios_delete c ("/posts/" ++ show_int postId ++ ".json") no_config
    [with_params
       {[ "api_username" :=
            if isDiscourseAdmin E username
            then VStr DISCOURSE_SYSTEM_USERNAME else username ]}].

Definition uploadImage (username : value) (f : file) : M (promise response) :=
  let data := [Field "type" "composer";
               Field "synchronous" "true";
               FileStream "file" (path f) (originalname f) (mimetype f)] in
  let* c := getClient in
  axios_post c "/uploads.json" (Multipart (getBoundary E f) data)
    {| cfg_headers :=
         Some {[ "Content-Type" :=
                   "multipart/form-data; boundary=" ++ getBoundary E f ]};
       cfg_params :=
         Some {[ "api_username" :=
                   if isDiscourseAdmin E username
                   then VStr DISCOURSE_SYSTEM_USERNAME else username ]} |}.

(** The array [markTopicPostsRead] fills with [push]. *)
Definition timing_parts (topicId : Z) (postIds : list Z) : list string :=
  fold_left
    (fun parts postId =>
       (parts ++ [(encodeURIComponent ("timings[" ++ show_int postId ++ "]")
                   ++ "=1000")%string])%list)
    postIds
    ["topic_id=" ++ show_int topicId; "topic_time=" ++ show_int topicId].

Definition markTopicPostsRead (username : value) (topicId : Z) (postIds : list Z)
  : M (promise response) :=
  let parts := timing_parts topicId postIds in
  let* c := getClient in
  axios_post c "/topics/timings.json" (Form (String.concat "&" parts))
    (with_params {[ "api_username" := username ]}).

Definition changeTrustLevel (userId : Z) (level : value) : M (promise response) :=
  logger Debug [LText "Changing trust level of user in discourse:";
                LValue (VNum userId)] ;;
  let* c := getClient in
  axios_put c ("/admin/users/" ++ show_int userId ++ "/trust_level")
    (Json (VObj {[ "user_id" := VNum userId; "level" := level ]}))
    no_config.

Definition removeAccess (userName : value) (topicId : Z) : M (promise response) :=
  let* c := getClient in
  axios_put c ("/t/" ++ show_int topicId ++ "/remove-allowed-user")
    (Json (VObj {[ "username" := userName ]}))
    (with_params {[ "api_username" := VStr "system" ]}).

(** ** The exported operations, as one type *)

Inductive op :=
| CreateUser (name userId handle email password : value)
| GetUser (username : value)
| ChangeTrustLevel (userId : Z) (level : value)
| GrantAccess (userName : value) (topicId : Z) (invitee : value)
| RemoveAccess (userName : value) (topicId : Z)
| GetTopic (topicId : Z) (username : value)
| UpdateTopic (username : value) (topicId : Z) (title : value)
| DeleteTopic (username : value) (topicId : Z)
| CreatePost (username : value) (post : string) (discourseTopicId : Z)
    (responseTo : value)
| UpdatePost (username : value) (postId : Z) (body : value)
| DeletePost (username : value) (postId : Z)
| UploadImage (username : value) (f : file)
| CreatePrivatePost (title post users owner : value)
| GetPost (username : value) (postId : Z)
| GetPosts (username : value) (topicId : Z) (postIds : list Z)
| MarkTopicPostsRead (username : value) (topicId : Z) (postIds : list Z).

Definition as_payload (m : M (promise value)) : M (promise result) :=
  let* p := m in ret (then_ p Payload).

Definition as_response (m : M (promise response)) : M (promise result) :=
  let* p := m in ret (then_ p Response).

Definition run (o : op) : M (promise result) :=
  match o with
  | CreateUser name userId handle email password =>
      as_response (createUser name userId handle email password)
  | GetUser username => as_payload (getUser username)
  | ChangeTrustLevel userId level => as_response (changeTrustLevel userId level)
  | GrantAccess userName topicId invitee =>
      as_response (grantAccess userName topicId invitee)
  | RemoveAccess userName topicId => as_response (removeAccess userName topicId)
  | GetTopic topicId username => as_payload (getTopic topicId username)
  | UpdateTopic username topicId title =>
      as_response (updateTopic username topicId title)
  | DeleteTopic username topicId => as_response (deleteTopic username topicId)
  | CreatePost username post discourseTopicId responseTo =>
      as_response (createPost username post discourseTopicId responseTo)
  | UpdatePost username postId body => as_response (updatePost username postId body)
  | DeletePost username postId => as_response (deletePost username postId)
  | UploadImage username f => as_response (uploadImage username f)
  | CreatePrivatePost title post users owner =>
      as_response (createPrivatePost title post users owner)
  | GetPost username postId => as_response (getPost username postId)
  | GetPosts username topicId postIds =>
      as_response (getPosts username topicId postIds)
  | MarkTopicPostsRead username topicId postIds =>
      as_response (markTopicPostsRead username topicId postIds)
  end.

(** A sequence of calls, for what holds over the life of the process. *)
Fixpoint run_all (l : list op) (st : state) : state :=
  match l with
  | [] => st
  | o :: l' => run_all l' (snd (run o st))
  end.

(** ** Observations on a run *)

(** The requests an operation hands to the transport from [st]. *)
Definition issued (o : op) (st : state) : list request :=
  drop (length (sent st)) (sent (snd (run o st))).

(** The log entries an operation writes from [st]. *)
Definition logged (o : op) (st : state) : list log_entry :=
  drop (length (log st)) (log (snd (run o st))).

Definition is_error (e : log_entry) : bool :=
  match lvl e with Error => true | _ => false end.

(** The [api_username] given through the request's parameters. *)
Definition acting_param (r : request) : option value :=
  r_params r !! "api_username".

(** Every [api_username] the request carries to the forum: those written
    into the url by the caller, then the one of the parameters. *)
Definition api_usernames (r : request) : list value :=
  (List.map VStr (entries_of "api_username" (url_entries (r_url r)))
   ++ option_list (acting_param r))%list.

(** The operation issues one request, and [who] is the one acting user
    that request names. *)
Definition acts_as (o : op) (st : state) (who : value) : Prop :=
  List.map api_usernames (issued o st) = [[who]].

(** The fields of a form-encoded body. *)
Definition body_entries (r : request) : list (string * string) :=
  match r_data r with
  | Form s => form_entries s
  | _ => []
  end.

(** Entries of the logging interceptor start with its fixed text. *)
Definition from_interceptor (e : log_entry) : bool :=
  match args e with
  | LText t :: _ => String.eqb t "Discourse call failed: "
  | _ => false
  end.

(** The error entries an operation logs: those of the interceptor, and
    those beyond. *)
Definition interceptor_errors (o : op) (st : state) : list log_entry :=
  List.filter from_interceptor (List.filter is_error (logged o st)).

Definition extra_errors (o : op) (st : state) : list log_entry :=
  List.filter (fun e => negb (from_interceptor e))
    (List.filter is_error (logged o st)).

(** Every call of the operation fails upstream: the forum answers outside
    2xx, or not at all. *)
Definition upstream_fails (o : op) (st : state) : Prop :=
  Forall (fun r => is_rejected (settle r (upstream E r)) = true) (issued o st).

(** The username or owner argument of the operations that take the
    acting identity from their caller; [grantAccess]'s invitee and
    [markTopicPostsRead]'s username are left out, as the specification
    leaves them out. *)
Definition acting_argument (o : op) : option value :=
  match o with
  | GetUser username
  | GetTopic _ username
  | UpdateTopic username _ _
  | DeleteTopic username _
  | CreatePost username _ _ _
  | UpdatePost username _ _
  | DeletePost username _
  | UploadImage username _
  | GetPost username _
  | GetPosts username _ _ => Some username
  | CreatePrivatePost _ _ _ owner => Some owner
  | CreateUser _ _ _ _ _
  | ChangeTrustLevel _ _
  | GrantAccess _ _ _
  | RemoveAccess _ _
  | MarkTopicPostsRead _ _ _ => None
  end.

(** The module variable [client] holds nothing or the configured client. *)
Definition wf (st : state) : Prop :=
  client st = None \/ client st = Some configured_client.

(** ** Auxiliary definitions for the proofs *)

(** The entry the logging interceptor writes for a settled call. *)
Definition interceptor_entry (p : promise response) : log_entry :=
  match p with
  | Fulfilled res =>
      {| lvl := Info; args := [LText "SUCCESS"; LValue (pick_success res)] |}
  | Rejected e =>
      {| lvl := Error;
         args := [LText "Discourse call failed: "; LValue (pick_failure e)] |}
  end.

(** The request the configured client dispatches for a call. *)
Definition dispatched (m : method) (u : string) (d : body) (cfg : req_config)
  : request :=
  {| r_method := m;
     r_baseURL := discourseURL E;
     r_url := u;
     r_data := d;
     r_headers := default ∅ (cfg_headers cfg);
     r_params := merge_params configured_client cfg |}.

(** A url into which no caller wrote an [api_username]. *)
Definition plain_url (u : string) : Prop :=
  entries_of "api_username" (url_entries u) = [].

(** An entry of the filter of [getPosts], with its key encoded. *)
Definition post_id_entry (postId : Z) : string :=
  "post_ids%5B%5D=" ++ show_int postId.

(** An entry [markTopicPostsRead] pushes for a post. *)
Definition timing_entry (postId : Z) : string :=
  encodeURIComponent ("timings[" ++ show_int postId ++ "]") ++ "=1000".

(** The configuration and body [createPrivatePost] passes to [post], and
    what its rejection handler logs. *)
Definition createPrivatePost_config (owner : value) : req_config :=
  {| cfg_params :=
       Some {[ "api_username" :=
                 if truthy owner && negb (isDiscourseAdmin E owner)
                 then owner else VStr DISCOURSE_SYSTEM_USERNAME ]};
     cfg_headers := None |}.

Definition createPrivatePost_body (title post users : value) : body :=
  Json (VObj {[ "archetype" := VStr "private_message";
                "target_usernames" := users;
                "title" := title;
                "raw" := post ]}).

Definition handler_entries (p : promise response) : list log_entry :=
  match p with
  | Fulfilled _ => []
  | Rejected err =>
      [{| lvl := Error; args := [LText "Error creating topic"] |};
       {| lvl := Error; args := [LError err] |}]
  end.

Definition is_createPrivatePost (o : op) : bool :=
  match o with CreatePrivatePost _ _ _ _ => true | _ => false end.

End Discourse.

(** ** Concrete environments *)

(** A deployment whose system user is not called [system], whose only
    application administrator is [root1] and whose forum answers every
    request with the given status. *)
Definition sample_env (code : Z) : env :=
  {| discourseURL := "https://forum.example";
     discourseApiKey := VStr "k3y";
     discourseSystemUsername := "forum-bot";
     isDiscourseAdmin := fun v => match v with
                                  | VStr s => String.eqb s "root1"
                                  | _ => false
                                  end;
     upstream := fun _ => Reply code VNull;
     getBoundary := fun _ => "--------b0und" |}.

(** ** Further observations on a run *)

(** Every call of the operation succeeds upstream: the forum answers
    within 2xx. *)
Definition upstream_succeeds (E : env) (o : op) (st : state) : Prop :=
  Forall (fun r => is_rejected (settle r (upstream E r)) = false) (issued E o st).

Definition is_info (e : log_entry) : bool :=
  match lvl e with Info => true | _ => false end.

(** Entries of the logging interceptor, of either handler. *)
Definition interceptor_text (e : log_entry) : bool :=
  match args e with
  | LText t :: _ =>
      String.eqb t "SUCCESS" || String.eqb t "Discourse call failed: "
  | _ => false
  end.

Definition is_LError (a : log_arg) : bool :=
  match a with LError _ => true | _ => false end.

(** The entry logs an error object, and with it the request it came from. *)
Definition logs_error_object (e : log_entry) : bool :=
  existsb is_LError (args e).

(** What the operation resolves with: [getUser] and [getTopic] unwrap
    [response.data], the others hand the response on. *)
Definition resolution (o : op) (res : response) : result :=
  match o with
  | GetUser _ | GetTopic _ _ => Payload (data res)
  | _ => Response res
  end.

(** Reading back one encoded byte, to tell encodings apart. *)
Definition hex_value (c : ascii) : option N :=
  (fix find (i : N) (digits : string) : option N :=
     match digits with
     | EmptyString => None
     | String d digits' => if Ascii.eqb c d then Some i else find (i + 1)%N digits'
     end) 0%N "0123456789ABCDEF".

Definition decode_head (s : string) : option (ascii * string) :=
  match s with
  | EmptyString => None
  | String c t =>
      if Ascii.eqb c "%" then
        match t with
        | String h (String l t') =>
            match hex_value h, hex_value l with
            | Some a, Some b => Some (ascii_of_N (16 * a + b), t')
            | _, _ => None
            end
        | _ => None
        end
      else Some (c, t)
  end.

(** ** The bootstrap of [server.js]: the name of the logger

    [process.env.ENVIRONMENT] is a string or absent; [toLowerCase] is taken
    on the ASCII letters, which is all the comparison with the three ASCII
    names can depend on. *)

Definition lower_char (c : ascii) : ascii :=
  let n := N_of_ascii c in
  if ((65 <=? n) && (n <=? 90))%N then ascii_of_N (n + 32) else c.

Fixpoint toLowerCase (s : string) : string :=
  match s with
  | EmptyString => ""
  | String c s' => String (lower_char c) (toLowerCase s')
  end.

Definition appName (ENVIRONMENT : option string) : string :=
  let appName := "tc-message-service" in
  match ENVIRONMENT with
  | Some e =>
      if truthy (VStr e) then
        let e := toLowerCase e in
        if String.eqb e "development" then appName ++ "-dev"
        else if String.eqb e "qa" then appName ++ "-qa"
        else if String.eqb e "production" then appName ++ "-prod"
        else appName ++ "-prod"
      else appName
  | None => appName
  end.

(** * Properties *)

(** ** Strings *)

(** stdpp keeps [simpl] from unfolding string concatenation; the proofs
    below compute with literal prefixes, so it is unfolded on constructors. *)
#[local] Arguments String.append !s1 s2 : simpl nomatch.

Section StringFacts.

Lemma append_assoc (a b c : string) : (a ++ b) ++ c = a ++ (b ++ c).
Proof. induction a as [|x a IH]; simpl; [reflexivity|]. rewrite IH. reflexivity. Qed.

Lemma str_all_app P a b : str_all P (a ++ b) = str_all P a && str_all P b.
Proof.
  induction a as [|c a IH]; simpl; [reflexivity|].
  rewrite IH. apply andb_assoc.
Qed.

Lemma str_all_impl (P Q : ascii -> bool) s :
  (forall c, P c = true -> Q c = true) ->
  str_all P s = true -> str_all Q s = true.
Proof.
  intros HPQ. induction s as [|c s IH]; simpl; [reflexivity|].
  intros [Hc Hs]%andb_prop. rewrite (HPQ _ Hc), (IH Hs). reflexivity.
Qed.

Lemma digits_of_uint d : str_all is_digit (NilEmpty.string_of_uint d) = true.
Proof. induction d; simpl; auto. Qed.

Lemma show_int_chars n : str_all is_int_char (show_int n) = true.
Proof.
  assert (Hu : forall d, str_all is_int_char (NilZero.string_of_uint d) = true).
  { intros d.
    assert (Hd : str_all is_int_char (NilEmpty.string_of_uint d) = true).
    { generalize (digits_of_uint d). apply str_all_impl.
      intros c Hc. unfold is_int_char. rewrite Hc. reflexivity. }
    destruct d; [reflexivity|exact Hd..]. }
  unfold show_int, NilZero.string_of_int.
  destruct (Z.to_int n); simpl; auto.
Qed.

(** Facts about single characters are settled by running through the
    256 of them. *)
Ltac by_cases_on_char c :=
  destruct c as [[] [] [] [] [] [] [] []]; vm_compute; auto; discriminate.

Lemma int_char_unreserved c : is_int_char c = true -> unreserved c = true.
Proof. by_cases_on_char c. Qed.

Lemma int_char_plain c :
  is_int_char c = true ->
  is_not "&" c = true /\ is_not "=" c = true /\ is_not "?" c = true.
Proof.
  destruct c as [[] [] [] [] [] [] [] []]; vm_compute; auto; discriminate.
Qed.

Lemma encode_byte_plain c :
  str_all (is_not "&") (encode_byte c) = true /\
  str_all (is_not "=") (encode_byte c) = true.
Proof. destruct c as [[] [] [] [] [] [] [] []]; vm_compute; auto. Qed.

Lemma show_int_free n :
  str_all (is_not "&") (show_int n) = true /\
  str_all (is_not "=") (show_int n) = true /\
  str_all (is_not "?") (show_int n) = true.
Proof.
  pose proof (show_int_chars n) as H.
  repeat split; revert H; apply str_all_impl; intros c Hc;
    apply int_char_plain in Hc; tauto.
Qed.

Lemma encodeURIComponent_app a b :
  encodeURIComponent (a ++ b) = encodeURIComponent a ++ encodeURIComponent b.
Proof.
  induction a as [|c a IH]; simpl; [reflexivity|].
  rewrite IH. symmetry. apply append_assoc.
Qed.

Lemma encodeURIComponent_unreserved s :
  str_all unreserved s = true -> encodeURIComponent s = s.
Proof.
  induction s as [|c s IH]; simpl; [reflexivity|].
  intros [Hc Hs]%andb_prop. unfold encode_byte. rewrite Hc, (IH Hs).
  reflexivity.
Qed.

Lemma encodeURIComponent_show_int n :
  encodeURIComponent (show_int n) = show_int n.
Proof.
  apply encodeURIComponent_unreserved.
  pose proof (show_int_chars n) as H. revert H.
  apply str_all_impl, int_char_unreserved.
Qed.

Lemma encodeURIComponent_free s :
  str_all (is_not "&") (encodeURIComponent s) = true /\
  str_all (is_not "=") (encodeURIComponent s) = true.
Proof.
  induction s as [|c s [IH1 IH2]]; simpl; [auto|].
  rewrite !str_all_app, IH1, IH2.
  destruct (encode_byte_plain c) as [-> ->]. auto.
Qed.

Lemma split_on_nonempty c s : split_on c s <> [].
Proof.
  induction s as [|a s IH]; simpl; [discriminate|].
  destruct (Ascii.eqb a c); [discriminate|].
  destruct (split_on c s); discriminate.
Qed.

(** A separator after a prefix free of it ends the first piece. *)
Lemma split_on_app c a b :
  str_all (is_not c) a = true ->
  split_on c (a ++ String c b) = a :: split_on c b.
Proof.
  induction a as [|x a IH]; simpl.
  - intros _. rewrite Ascii.eqb_refl. reflexivity.
  - intros [Hx Ha]%andb_prop. unfold is_not in Hx.
    apply negb_true_iff in Hx. rewrite Hx, (IH Ha). reflexivity.
Qed.

Lemma split_on_free c a :
  str_all (is_not c) a = true -> split_on c a = [a].
Proof.
  induction a as [|x a IH]; simpl; [reflexivity|].
  intros [Hx Ha]%andb_prop. unfold is_not in Hx.
  apply negb_true_iff in Hx. rewrite Hx, (IH Ha). reflexivity.
Qed.

(** Splitting undoes joining, when no piece holds the separator. *)
Lemma split_on_concat c l :
  l <> [] ->
  Forall (fun s => str_all (is_not c) s = true) l ->
  split_on c (String.concat (String c "") l) = l.
Proof.
  intros Hne Hall. induction Hall as [|s l Hs Hl IH]; [congruence|].
  destruct l as [|s' l].
  - simpl. apply split_on_free, Hs.
  - change (String.concat (String c "") (s :: s' :: l))
      with (s ++ String c (String.concat (String c "") (s' :: l))).
    rewrite (split_on_app _ _ _ Hs), IH; [reflexivity|discriminate].
Qed.

Lemma cut_app c k v :
  str_all (is_not c) k = true -> cut c (k ++ String c v) = (k, v).
Proof.
  induction k as [|x k IH]; simpl.
  - intros _. rewrite Ascii.eqb_refl. reflexivity.
  - intros [Hx Hk]%andb_prop. unfold is_not in Hx.
    apply negb_true_iff in Hx. rewrite Hx, (IH Hk). reflexivity.
Qed.

Lemma query_part_app a b :
  str_all (is_not "?") a = true -> query_part (a ++ b) = query_part b.
Proof.
  induction a as [|x a IH]; simpl; [reflexivity|].
  intros [Hx Ha]%andb_prop. unfold is_not in Hx.
  apply negb_true_iff in Hx. rewrite Hx. apply IH, Ha.
Qed.

Lemma query_part_free a :
  str_all (is_not "?") a = true -> query_part a = None.
Proof.
  induction a as [|x a IH]; simpl; [reflexivity|].
  intros [Hx Ha]%andb_prop. unfold is_not in Hx.
  apply negb_true_iff in Hx. rewrite Hx. apply IH, Ha.
Qed.

End StringFacts.

(** ** Running an operation *)

Section Dispatch.

Variable E : env.

Lemma axios_request_configured m u d cfg st :
  axios_request E (configured_client E) m u d cfg st =
  let r := dispatched E m u d cfg in
  let p := settle r (upstream E r) in
  (p, {| client := client st;
         log := log st ++ [interceptor_entry p];
         sent := sent st ++ [r] |}).
Proof.
  unfold axios_request, dispatchRequest, bind, transmit, ret. simpl.
  fold (dispatched E m u d cfg).
  destruct (settle _ _); reflexivity.
Qed.

Lemma getClient_rec c l s :
  c = None \/ c = Some (configured_client E) ->
  getClient E {| client := c; log := l; sent := s |} =
  (configured_client E,
   {| client := Some (configured_client E); log := l; sent := s |}).
Proof. unfold getClient. intros [H|H]; rewrite H; reflexivity. Qed.

End Dispatch.

Ltac unfold_ops :=
  unfold acts_as, issued, logged, run, as_response, as_payload,
    createUser, getUser, createPrivatePost, getTopic, updateTopic,
    deleteTopic, grantAccess, createPost, getPost, getPosts, updatePost,
    deletePost, uploadImage, markTopicPostsRead, changeTrustLevel,
    removeAccess, bind, axios_get, axios_post, axios_put, axios_delete,
    logger, with_params.

(** Run one operation from a well-formed state [st]. *)
Ltac exec st Hwf :=
  destruct st as [c l s]; unfold wf in Hwf; cbn [client] in Hwf;
  unfold_ops;
  rewrite getClient_rec by exact Hwf;
  rewrite axios_request_configured;
  cbn [fst snd sent log client ret];
  rewrite <- ?List.app_assoc, ?drop_app_length.

Section Runs.

Variable E : env.

(** *** Acting user of a dispatched E request *)

Lemma acting_param_given m u d h v :
  acting_param
    (dispatched E m u d {| cfg_params := Some {[ "api_username" := v ]};
                         cfg_headers := h |}) = Some v.
Proof.
  unfold acting_param, dispatched, merge_params. cbn [r_params cfg_params].
  apply lookup_union_Some_l, lookup_singleton_eq.
Qed.

Lemma acting_param_default m u d :
  acting_param (dispatched E m u d no_config)
  = Some (VStr (DISCOURSE_SYSTEM_USERNAME E)).
Proof.
  unfold acting_param, dispatched, merge_params, configured_client.
  cbn [r_params cfg_params no_config default_params].
  rewrite lookup_insert_ne by discriminate. apply lookup_singleton_eq.
Qed.

Lemma api_usernames_plain m u d cfg :
  plain_url u ->
  api_usernames (dispatched E m u d cfg)
  = option_list (acting_param (dispatched E m u d cfg)).
Proof.
  unfold api_usernames, plain_url. cbn [r_url dispatched].
  intros ->. reflexivity.
Qed.

Lemma url_entries_id pre n post :
  str_all (is_not "?") pre = true ->
  url_entries (pre ++ show_int n ++ post) =
  match query_part post with Some q => form_entries q | None => [] end.
Proof.
  intros Hpre. unfold url_entries.
  rewrite (query_part_app _ _ Hpre).
  rewrite query_part_app by apply show_int_free. reflexivity.
Qed.

Lemma plain_url_id pre n post :
  str_all (is_not "?") pre = true ->
  match query_part post with
  | Some q => entries_of "api_username" (form_entries q) = []
  | None => True
  end ->
  plain_url (pre ++ show_int n ++ post).
Proof.
  intros Hpre Hpost. unfold plain_url. rewrite (url_entries_id _ _ _ Hpre).
  destruct (query_part post); [exact Hpost|reflexivity].
Qed.

(** *** The filter of [getPosts] *)

Lemma post_id_entry_free postId :
  str_all (is_not "&") (post_id_entry postId) = true.
Proof.
  unfold post_id_entry. rewrite str_all_app.
  destruct (show_int_free postId) as (-> & _). reflexivity.
Qed.

Lemma postIdsFilter_loop_from acc postIds :
  fold_left
    (fun '(postIdsFilter, separator) postId =>
       (postIdsFilter ++ separator ++ encodeURIComponent "post_ids[]"
          ++ "=" ++ show_int postId, "&"))
    postIds (acc, "&")
  = (acc ++ fold_right (fun postId s => "&" ++ post_id_entry postId ++ s)
               "" postIds, "&").
Proof.
  revert acc. induction postIds as [|a l IH]; intros acc; cbn [fold_left fold_right].
  - f_equal. induction acc as [|x acc IHa]; simpl; congruence.
  - rewrite IH. f_equal. rewrite append_assoc.
    change (encodeURIComponent "post_ids[]" ++ "=" ++ show_int a)
      with (post_id_entry a).
    rewrite <- (append_assoc "&"), append_assoc. reflexivity.
Qed.

Lemma concat_cons_entries (f : Z -> string) a l :
  String.concat "&" (List.map f (a :: l))
  = f a ++ fold_right (fun x s => "&" ++ f x ++ s) "" l.
Proof.
  revert a. induction l as [|b l IH]; intros a.
  - simpl. induction (f a) as [|x s IHs]; simpl; congruence.
  - change (String.concat "&" (List.map f (a :: b :: l)))
      with (f a ++ "&" ++ String.concat "&" (List.map f (b :: l))).
    rewrite IH. reflexivity.
Qed.

Lemma postIdsFilter_loop_concat postIds :
  fst (postIdsFilter_loop postIds)
  = String.concat "&" (List.map post_id_entry postIds).
Proof.
  unfold postIdsFilter_loop. destruct postIds as [|a l]; [reflexivity|].
  cbn [fold_left]. rewrite concat_cons_entries.
  change ("" ++ "" ++ encodeURIComponent "post_ids[]" ++ "=" ++ show_int a)
    with (post_id_entry a).
  rewrite postIdsFilter_loop_from. reflexivity.
Qed.

Lemma cut_post_id_entry postId :
  cut "=" (post_id_entry postId) = ("post_ids%5B%5D", show_int postId).
Proof. apply (cut_app "=" "post_ids%5B%5D"). reflexivity. Qed.

Lemma form_entries_concat (l : list string) :
  l <> [] ->
  Forall (fun s => str_all (is_not "&") s = true) l ->
  Forall (fun s => s <> "") l ->
  form_entries (String.concat "&" l) = List.map (cut "=") l.
Proof.
  intros Hne Hfree Hs. unfold form_entries.
  rewrite (split_on_concat "&" l Hne Hfree).
  destruct (String.concat "&" l) eqn:Hc; [|reflexivity].
  exfalso. destruct l as [|a [|b l]]; [congruence| |].
  - simpl in Hc. inversion Hs; subst. congruence.
  - change (a ++ "&" ++ String.concat "&" (b :: l) = "") in Hc.
    destruct a; discriminate.
Qed.

(** *** The parts of [markTopicPostsRead] *)

Lemma timing_parts_from init postIds :
  fold_left
    (fun parts postId =>
       (parts ++ [(encodeURIComponent ("timings[" ++ show_int postId ++ "]")
                   ++ "=1000")%string])%list)
    postIds init
  = (init ++ List.map timing_entry postIds)%list.
Proof.
  revert init. induction postIds as [|a l IH]; intros init; cbn [fold_left List.map].
  - symmetry. apply List.app_nil_r.
  - rewrite IH, <- List.app_assoc. reflexivity.
Qed.

Lemma timing_key postId :
  encodeURIComponent ("timings[" ++ show_int postId ++ "]")
  = "timings%5B" ++ show_int postId ++ "%5D".
Proof.
  rewrite !encodeURIComponent_app, encodeURIComponent_show_int. reflexivity.
Qed.

Lemma timing_entry_free postId :
  str_all (is_not "&") (timing_entry postId) = true.
Proof.
  unfold timing_entry. rewrite str_all_app.
  destruct (encodeURIComponent_free ("timings[" ++ show_int postId ++ "]"))
    as [-> _].
  reflexivity.
Qed.

Lemma cut_timing_entry postId :
  cut "=" (timing_entry postId)
  = (encodeURIComponent ("timings[" ++ show_int postId ++ "]"), "1000").
Proof.
  unfold timing_entry. apply (cut_app "="), encodeURIComponent_free.
Qed.

Lemma timing_entry_nonempty postId : timing_entry postId <> "".
Proof.
  unfold timing_entry. rewrite timing_key. discriminate.
Qed.

(** *** [createPrivatePost], whose rejection handler logs *)

Lemma createPrivatePost_run title post users owner c l s :
  c = None \/ c = Some (configured_client E) ->
  createPrivatePost E title post users owner
    {| client := c; log := l; sent := s |} =
  let r := dispatched E POST "/posts" (createPrivatePost_body title post users)
             (createPrivatePost_config E owner) in
  let p := settle r (upstream E r) in
  (p, {| client := Some (configured_client E);
         log := (l ++ interceptor_entry p :: handler_entries p)%list;
         sent := (s ++ [r])%list |}).
Proof.
  intros Hc. unfold createPrivatePost, bind, axios_post, with_params.
  rewrite (getClient_rec E _ _ _ Hc), axios_request_configured.
  fold (createPrivatePost_body title post users).
  fold (createPrivatePost_config E owner).
  cbv zeta.
  destruct (settle _ _) as [res|err]; cbn [catch_ ret handler_entries].
  - reflexivity.
  - unfold bind, logger, ret. cbn [client log sent].
    rewrite <- !List.app_assoc. reflexivity.
Qed.

Lemma wf_initial : wf E initial_state.
Proof. left. reflexivity. Qed.

Lemma createPrivatePost_issued title post users owner st :
  wf E st ->
  issued E (CreatePrivatePost title post users owner) st =
  [dispatched E POST "/posts" (createPrivatePost_body title post users)
     (createPrivatePost_config E owner)].
Proof.
  intros Hwf. destruct st as [c l s]. unfold issued, run, as_response, bind.
  rewrite (createPrivatePost_run _ _ _ _ _ _ _ Hwf).
  cbn [fst snd sent ret]. apply drop_app_length.
Qed.

Lemma createPrivatePost_acts title post users owner st who :
  wf E st ->
  acts_as E (CreatePrivatePost title post users owner) st who <->
  who = if truthy owner && negb (isDiscourseAdmin E owner)
        then owner else VStr (DISCOURSE_SYSTEM_USERNAME E).
Proof.
  intros Hwf. unfold acts_as.
  rewrite (createPrivatePost_issued _ _ _ _ _ Hwf). cbn [List.map].
  rewrite api_usernames_plain by reflexivity.
  unfold createPrivatePost_config. rewrite acting_param_given.
  cbn [option_list]. split; [intros [= <-]|intros ->]; reflexivity.
Qed.

(** *** Urls of the operations carry no acting user of their own *)

Lemma getPosts_url_plain topicId postIds :
  plain_url ("/t/" ++ show_int topicId ++ "/posts.json?include_raw=1&"
             ++ fst (postIdsFilter_loop postIds)).
Proof.
  apply plain_url_id; [reflexivity|].
  cbn [query_part String.append Ascii.eqb Bool.eqb].
  rewrite postIdsFilter_loop_concat. unfold form_entries.
  cbn [String.append].
  change (String "i" (String "n" (String "c" (String "l" (String "u"
           (String "d" (String "e" (String "_" (String "r" (String "a"
           (String "w" (String "=" (String "1" (String "&" ?x))))))))))))))
    with ("include_raw=1" ++ String "&" x).
  rewrite split_on_app by reflexivity.
  destruct postIds as [|a l]; [reflexivity|].
  rewrite split_on_concat.
  - cbn [List.map]. unfold entries_of. cbn [List.filter fst cut].
    change (cut "=" "include_raw=1") with ("include_raw", "1").
    rewrite cut_post_id_entry. cbn [fst String.eqb Ascii.eqb Bool.eqb].
    induction l as [|b l IH]; [reflexivity|].
    cbn [List.map List.filter]. rewrite cut_post_id_entry. exact IH.
  - discriminate.
  - apply List.Forall_map, List.Forall_forall. intros x _.
    apply post_id_entry_free.
Qed.

(** *** The body of [createPost] *)

Lemma createPost_entries_plain topicId post :
  form_entries ("topic_id=" ++ show_int topicId
                ++ "&raw=" ++ encodeURIComponent post)
  = [("topic_id", show_int topicId); ("raw", encodeURIComponent post)].
Proof.
  transitivity
    (form_entries (String.concat "&"
       ["topic_id=" ++ show_int topicId; "raw=" ++ encodeURIComponent post])).
  { apply f_equal. cbn [String.concat]. rewrite ?append_assoc. reflexivity. }
  rewrite form_entries_concat; [reflexivity|discriminate| |].
  - repeat constructor.
    + change (str_all (is_not "&") (show_int topicId) = true).
      apply show_int_free.
    + change (str_all (is_not "&") (encodeURIComponent post) = true).
      apply encodeURIComponent_free.
  - repeat constructor; discriminate.
Qed.

Lemma createPost_entries_reply topicId post reply :
  str_all (is_not "&") reply = true ->
  form_entries (("topic_id=" ++ show_int topicId
                 ++ "&raw=" ++ encodeURIComponent post)
                ++ "&reply_to_post_number=" ++ reply)
  = [("topic_id", show_int topicId); ("raw", encodeURIComponent post);
     ("reply_to_post_number", reply)].
Proof.
  intros Hreply.
  transitivity
    (form_entries (String.concat "&"
       ["topic_id=" ++ show_int topicId; "raw=" ++ encodeURIComponent post;
        "reply_to_post_number=" ++ reply])).
  { apply f_equal. cbn [String.concat]. rewrite ?append_assoc. reflexivity. }
  rewrite form_entries_concat; [reflexivity|discriminate| |].
  - repeat constructor.
    + change (str_all (is_not "&") (show_int topicId) = true).
      apply show_int_free.
    + change (str_all (is_not "&") (encodeURIComponent post) = true).
      apply encodeURIComponent_free.
    + exact Hreply.
  - repeat constructor; discriminate.
Qed.

(** *** What a run leaves in the state, for any client *)

Lemma run_interceptors_frame li p st :
  exists p' lg,
    run_interceptors li p st =
    (p', {| client := client st; log := (log st ++ lg)%list; sent := sent st |})
    /\ is_rejected p' = is_rejected p.
Proof.
  revert p st. induction li as [|i li IH]; intros p st.
  - exists p, []. cbn [run_interceptors ret]. rewrite List.app_nil_r.
    destruct st; split; reflexivity.
  - cbn [run_interceptors]. unfold bind.
    destruct i, p as [res|e]; cbn [run_interceptor];
      unfold bind, logger, ret;
      match goal with
      | |- context [run_interceptors li ?q ?st'] =>
          destruct (IH q st') as (p' & lg & -> & Hrej)
      end;
      cbn [client log sent]; rewrite <- List.app_assoc;
      eexists; eexists; (split; [reflexivity|exact Hrej]).
Qed.

Lemma axios_request_frame c m u d cfg st :
  exists p lg r,
    axios_request E c m u d cfg st =
    (p, {| client := client st; log := (log st ++ lg)%list;
           sent := (sent st ++ [r])%list |}).
Proof.
  unfold axios_request, dispatchRequest, bind, transmit, ret.
  cbv beta iota zeta.
  match goal with
  | |- context [run_interceptors ?li ?q ?st'] =>
      destruct (run_interceptors_frame li q st') as (p' & lg & Heq & _)
  end.
  exists p', lg. eexists. rewrite Heq. reflexivity.
Qed.

Lemma run_keeps_client o st c :
  client st = Some c -> client (snd (run E o st)) = Some c.
Proof.
  intros Hc. destruct st as [c0 l s]. cbn [client] in Hc. subst c0.
  destruct o; unfold_ops; unfold getClient; cbn [client];
    match goal with
    | |- context [axios_request E ?c' ?m ?u ?d ?cfg ?st'] =>
        destruct (axios_request_frame c' m u d cfg st') as (p & lg & r & ->)
    end;
    cbn [ret snd client]; try reflexivity.
  destruct p; cbn [catch_ ret snd client]; reflexivity.
Qed.

Lemma run_sets_client o st :
  wf E st -> client (snd (run E o st)) = Some (configured_client E).
Proof.
  intros Hwf. destruct o;
    try (exec st Hwf; reflexivity).
  destruct st as [c l s]. unfold run, as_response, bind.
  rewrite (createPrivatePost_run _ _ _ _ _ _ _ Hwf). reflexivity.
Qed.

Lemma run_all_client ops st :
  wf E st -> ops <> [] ->
  client (run_all E ops st) = Some (configured_client E).
Proof.
  revert st. induction ops as [|o ops IH]; intros st Hwf Hne; [congruence|].
  cbn [run_all]. destruct ops as [|o' ops'].
  - cbn [run_all]. apply run_sets_client, Hwf.
  - apply IH; [|discriminate]. right. apply run_sets_client, Hwf.
Qed.

(** *** Failures *)

Lemma then_then {A B C} (p : promise A) (f : A -> B) (g : B -> C) :
  then_ (then_ p f) g = then_ p (fun a => g (f a)).
Proof. destruct p; reflexivity. Qed.

Lemma run_errors o st :
  wf E st ->
  exists r wrap,
    issued E o st = [r] /\
    fst (run E o st) = then_ (settle r (upstream E r)) wrap /\
    List.filter is_error (logged E o st)
    = List.filter is_error
        (interceptor_entry (settle r (upstream E r))
         :: (if is_createPrivatePost o
             then handler_entries (settle r (upstream E r)) else [])).
Proof.
  intros Hwf. destruct o; cbn [is_createPrivatePost];
    try (exec st Hwf; rewrite ?then_then;
         eexists; eexists; repeat split; reflexivity).
  destruct st as [c l s]. unfold issued, logged, run, as_response, bind.
  rewrite (createPrivatePost_run _ _ _ _ _ _ _ Hwf).
  cbn [fst snd sent log ret]. rewrite !drop_app_length.
  eexists; eexists; repeat split; reflexivity.
Qed.

End Runs.
(** ** The claims of the specification *)

(** The url of an operation other than [getUser] holds no [api_username]. *)
Ltac solve_plain :=
  first [ reflexivity
        | apply getPosts_url_plain
        | apply plain_url_id; [reflexivity | vm_compute; first [exact I | reflexivity]] ].

(** Settle who one executed call acts as. *)
Ltac settle_acting :=
  cbn [List.map];
  rewrite api_usernames_plain by solve_plain;
  first [rewrite acting_param_given | rewrite acting_param_default];
  cbn [option_list].

(** X14. [deleteTopic] and [deletePost] hand their parameters to [delete] as a
    third argument, so the client default decides: the system user acts,
    whoever the username is. *)
Lemma delete_acts_as_system (E : env) (st : state) (username : value) (id : Z) :
  wf E st ->
  acts_as E (DeleteTopic username id) st (VStr (DISCOURSE_SYSTEM_USERNAME E)) /\
  acts_as E (DeletePost username id) st (VStr (DISCOURSE_SYSTEM_USERNAME E)).
Proof.
  intros Hwf. split; exec st Hwf; settle_acting; reflexivity.
Qed.

(** X15. Where the parameters reach the client, a username that is no
    administrator is passed through as the one acting user;
    [createPrivatePost] asks in addition that the owner be truthy. *)
Lemma non_admin_acts_as_username (E : env) (st : state) (o : op)
    (username : value) :
  wf E st ->
  acting_argument o = Some username ->
  isDiscourseAdmin E username = false ->
  match o with
  | GetUser _ | DeleteTopic _ _ | DeletePost _ _ => True
  | CreatePrivatePost _ _ _ _ => truthy username = true -> acts_as E o st username
  | _ => acts_as E o st username
  end.
Proof.
  intros Hwf Harg Hadmin.
  destruct o; cbn [acting_argument] in Harg; try discriminate;
    injection Harg as ->; try exact I;
    try (exec st Hwf; settle_acting; rewrite ?Hadmin; reflexivity).
  intros Htruthy. apply createPrivatePost_acts; [assumption|].
  rewrite Htruthy, Hadmin. reflexivity.
Qed.

(** C1, as amended. When the administrator check holds of the username or
    owner, every operation taking the acting identity from its caller,
    except [getUser], names the system user as the one acting user of its
    request. [getUser] makes no administrator check: it writes the username
    it is given into the url, as [api_username] too, and adds no parameter
    of its own, so that the client's default applies beside it. *)
Theorem admin_acts_as_system (E : env) (st : state) (o : op) (username : value) :
  wf E st ->
  acting_argument o = Some username ->
  isDiscourseAdmin E username = true ->
  match o with
  | GetUser _ =>
      exists r,
        issued E o st = [r] /\
        r_url r = "/users/" ++ to_string username
                  ++ ".json?api_username=" ++ to_string username /\
        acting_param r = Some (VStr (DISCOURSE_SYSTEM_USERNAME E))
  | _ => acts_as E o st (VStr (DISCOURSE_SYSTEM_USERNAME E))
  end.
Proof.
  intros Hwf Harg Hadmin.
  destruct o; cbn [acting_argument] in Harg; try discriminate;
    injection Harg as ->;
    try (exec st Hwf; settle_acting; rewrite ?Hadmin; reflexivity).
  - eexists. split; [exec st Hwf; reflexivity|].
    split; [reflexivity|]. apply acting_param_default.
  - apply createPrivatePost_acts; [assumption|].
    rewrite Hadmin, andb_false_r. reflexivity.
Qed.

(** C1 fails as stated: for the administrator [root1], the request of
    [getUser] carries the original username as an acting user. *)
Lemma getUser_admin_keeps_username :
  acting_argument (GetUser (VStr "root1")) = Some (VStr "root1") /\
  isDiscourseAdmin (sample_env 200) (VStr "root1") = true /\
  List.map api_usernames
    (issued (sample_env 200) (GetUser (VStr "root1")) initial_state)
  = [[VStr "root1"; VStr "forum-bot"]] /\
  ~ acts_as (sample_env 200) (GetUser (VStr "root1")) initial_state
      (VStr (DISCOURSE_SYSTEM_USERNAME (sample_env 200))).
Proof.
  assert (H : List.map api_usernames
                (issued (sample_env 200) (GetUser (VStr "root1")) initial_state)
              = [[VStr "root1"; VStr "forum-bot"]])
    by (vm_compute; reflexivity).
  split; [reflexivity|]. split; [reflexivity|]. split; [exact H|].
  unfold acts_as. rewrite H. discriminate.
Qed.

(** The theorem of C1 at [getTopic] for the administrator [root1]. *)
Lemma admin_acts_as_system_witness :
  acts_as (sample_env 200) (GetTopic 7 (VStr "root1")) initial_state
    (VStr "forum-bot").
Proof.
  apply (admin_acts_as_system (sample_env 200) initial_state
           (GetTopic 7 (VStr "root1")) (VStr "root1")).
  - left. reflexivity.
  - reflexivity.
  - reflexivity.
Defined.

(** C2: the code at the failing input. [alice] is no administrator, and
    the requests of [deleteTopic] and [deletePost] act as the system user:
    the parameters holding her name are passed as a third argument, which
    the client's [delete] does not take. *)
Theorem delete_ignores_username :
  acting_argument (DeleteTopic (VStr "alice") 7) = Some (VStr "alice") /\
  isDiscourseAdmin (sample_env 200) (VStr "alice") = false /\
  acts_as (sample_env 200) (DeleteTopic (VStr "alice") 7) initial_state
    (VStr "forum-bot") /\
  acts_as (sample_env 200) (DeletePost (VStr "alice") 9) initial_state
    (VStr "forum-bot") /\
  ~ acts_as (sample_env 200) (DeleteTopic (VStr "alice") 7) initial_state
      (VStr "alice") /\
  ~ acts_as (sample_env 200) (DeletePost (VStr "alice") 9) initial_state
      (VStr "alice").
Proof.
  assert (H1 : acts_as (sample_env 200) (DeleteTopic (VStr "alice") 7)
                 initial_state (VStr "forum-bot"))
    by (vm_compute; reflexivity).
  assert (H2 : acts_as (sample_env 200) (DeletePost (VStr "alice") 9)
                 initial_state (VStr "forum-bot"))
    by (vm_compute; reflexivity).
  split; [reflexivity|]. split; [reflexivity|].
  split; [exact H1|]. split; [exact H2|].
  unfold acts_as in *. rewrite H1, H2. split; discriminate.
Qed.

(** C3, as amended. [createPost] appends [reply_to_post_number] to the form
    body when [responseTo] is truthy, with [responseTo] as its value, and
    leaves the field out when [responseTo] is falsy: undefined, but also
    [null], [0], the empty string and [false]. *)
Theorem createPost_reply_field (E : env) (st : state) (username : value)
    (post : string) (discourseTopicId : Z) (responseTo : value) :
  wf E st ->
  let base := "topic_id=" ++ show_int discourseTopicId
              ++ "&raw=" ++ encodeURIComponent post in
  exists r,
    issued E (CreatePost username post discourseTopicId responseTo) st = [r] /\
    (truthy responseTo = true ->
       r_data r = Form (base ++ "&reply_to_post_number=" ++ to_string responseTo) /\
       (str_all (is_not "&") (to_string responseTo) = true ->
        entries_of "reply_to_post_number" (body_entries r)
        = [to_string responseTo])) /\
    (truthy responseTo = false ->
       r_data r = Form base /\
       entries_of "reply_to_post_number" (body_entries r) = []).
Proof.
  intros Hwf base. subst base.
  eexists. split; [exec st Hwf; reflexivity|].
  unfold body_entries. cbn [r_data dispatched].
  split; intros ->.
  - split; [reflexivity|]. intros Hfree.
    rewrite createPost_entries_reply by exact Hfree. reflexivity.
  - split; [reflexivity|].
    rewrite createPost_entries_plain. reflexivity.
Qed.

(** C3 fails as stated: a [responseTo] of [0] is defined, and the body has
    no [reply_to_post_number]. *)
Lemma createPost_defined_zero_no_field :
  VNum 0 <> VUndefined /\
  List.map (fun r => (r_data r, entries_of "reply_to_post_number" (body_entries r)))
    (issued (sample_env 200) (CreatePost (VStr "alice") "hello" 7 (VNum 0))
       initial_state)
  = [(Form "topic_id=7&raw=hello", [])].
Proof. split; [discriminate|]. vm_compute. reflexivity. Qed.

(** The theorem of C3 at a reply to post 3. *)
Lemma createPost_reply_field_witness :
  exists r,
    issued (sample_env 200) (CreatePost (VStr "alice") "a&b" 7 (VNum 3))
      initial_state = [r] /\
    r_data r = Form "topic_id=7&raw=a%26b&reply_to_post_number=3" /\
    entries_of "reply_to_post_number" (body_entries r) = ["3"].
Proof.
  destruct (createPost_reply_field (sample_env 200) initial_state
              (VStr "alice") "a&b" 7 (VNum 3)) as (r & Hi & Ht & _).
  - left. reflexivity.
  - exists r. split; [exact Hi|].
    destruct Ht as [Hd He]; [reflexivity|].
    split; [exact Hd|]. apply He. reflexivity.
Defined.

(** C4. For a list of N post ids, [getPosts] puts into the url a filter of
    exactly N entries, one per id and in their order, each under the
    percent-encoded key [post_ids%5B%5D], joined by [&] with no separator
    before the first or after the last. *)
Theorem getPosts_filter (E : env) (st : state) (username : value)
    (topicId : Z) (postIds : list Z) :
  wf E st ->
  let entry := fun postId =>
    encodeURIComponent "post_ids[]" ++ "=" ++ show_int postId in
  let filter := String.concat "&" (List.map entry postIds) in
  exists r,
    issued E (GetPosts username topicId postIds) st = [r] /\
    r_url r = "/t/" ++ show_int topicId ++ "/posts.json?include_raw=1&" ++ filter /\
    fst (postIdsFilter_loop postIds) = filter /\
    encodeURIComponent "post_ids[]" = "post_ids%5B%5D" /\
    form_entries filter
      = List.map (fun postId => ("post_ids%5B%5D", show_int postId)) postIds /\
    length (form_entries filter) = length postIds /\
    (postIds <> [] -> split_on "&" filter = List.map entry postIds).
Proof.
  intros Hwf entry filter.
  assert (Hentries : postIds <> [] ->
            split_on "&" filter = List.map entry postIds /\
            form_entries filter
            = List.map (fun postId => ("post_ids%5B%5D", show_int postId)) postIds).
  { intros Hne.
    assert (Hm : List.map entry postIds <> []) by (destruct postIds; [congruence|discriminate]).
    assert (Hfree : Forall (fun s => str_all (is_not "&") s = true)
                      (List.map entry postIds)).
    { apply List.Forall_map, List.Forall_forall. intros x _. apply post_id_entry_free. }
    split; [apply split_on_concat; assumption|].
    unfold filter. rewrite form_entries_concat; [|assumption..|].
    - rewrite List.map_map. apply List.map_ext. intros a. apply cut_post_id_entry.
    - apply List.Forall_map, List.Forall_forall. intros x _. discriminate. }
  assert (Hform : form_entries filter
            = List.map (fun postId => ("post_ids%5B%5D", show_int postId)) postIds).
  { destruct postIds as [|a l']; [reflexivity|]. apply Hentries. discriminate. }
  eexists. split; [exec st Hwf; reflexivity|].
  cbn [r_url dispatched]. rewrite postIdsFilter_loop_concat.
  split; [reflexivity|]. split; [reflexivity|]. split; [reflexivity|].
  split; [exact Hform|]. split; [rewrite Hform; apply List.length_map|].
  intros Hne. apply Hentries, Hne.
Qed.

(** The theorem of C4 at two post ids. *)
Lemma getPosts_filter_witness :
  exists r,
    issued (sample_env 200) (GetPosts (VStr "alice") 7 [11; 12])
      initial_state = [r] /\
    r_url r
    = "/t/7/posts.json?include_raw=1&post_ids%5B%5D=11&post_ids%5B%5D=12".
Proof.
  destruct (getPosts_filter (sample_env 200) initial_state
              (VStr "alice") 7 [11; 12]) as (r & Hi & Hu & _).
  - left. reflexivity.
  - exists r. split; [exact Hi|exact Hu].
Defined.

(** C5. [markTopicPostsRead] posts a form body made of [topic_id=T],
    [topic_time=T] and one entry [timings%5Bp%5D=1000] per post id [p], and
    names the given username as acting user whatever the administrator check
    says of it. *)
Theorem markTopicPostsRead_request (E : env) (st : state) (username : value)
    (topicId : Z) (postIds : list Z) :
  wf E st ->
  let timing := fun postId =>
    encodeURIComponent ("timings[" ++ show_int postId ++ "]") ++ "=1000" in
  exists r,
    issued E (MarkTopicPostsRead username topicId postIds) st = [r] /\
    r_data r = Form (String.concat "&"
                       (("topic_id=" ++ show_int topicId)
                        :: ("topic_time=" ++ show_int topicId)
                        :: List.map timing postIds)) /\
    body_entries r
      = ("topic_id", show_int topicId)
        :: ("topic_time", show_int topicId)
        :: List.map (fun postId =>
                       (("timings%5B" ++ show_int postId ++ "%5D")%string,
                        "1000"))
             postIds /\
    api_usernames r = [username].
Proof.
  intros Hwf timing.
  eexists. split; [exec st Hwf; reflexivity|].
  unfold body_entries. cbn [r_data dispatched].
  unfold timing_parts. rewrite timing_parts_from. cbn [app].
  split; [reflexivity|]. split.
  - rewrite form_entries_concat.
    + cbn [List.map]. rewrite List.map_map.
      do 2 f_equal.
      apply List.map_ext. intros a.
      rewrite cut_timing_entry, timing_key. reflexivity.
    + discriminate.
    + repeat constructor.
      * change (str_all (is_not "&") (show_int topicId) = true).
        apply show_int_free.
      * change (str_all (is_not "&") (show_int topicId) = true).
        apply show_int_free.
      * apply List.Forall_map, List.Forall_forall. intros x _.
        apply timing_entry_free.
    + repeat constructor; try discriminate.
      apply List.Forall_map, List.Forall_forall. intros x _.
      apply timing_entry_nonempty.
  - rewrite api_usernames_plain by reflexivity.
    rewrite acting_param_given. reflexivity.
Qed.

(** The theorem of C5 at two post ids, read by an administrator. *)
Lemma markTopicPostsRead_request_witness :
  exists r,
    issued (sample_env 200) (MarkTopicPostsRead (VStr "root1") 7 [1; 2])
      initial_state = [r] /\
    r_data r
    = Form "topic_id=7&topic_time=7&timings%5B1%5D=1000&timings%5B2%5D=1000" /\
    api_usernames r = [VStr "root1"].
Proof.
  destruct (markTopicPostsRead_request (sample_env 200) initial_state
              (VStr "root1") 7 [1; 2]) as (r & Hi & Hd & _ & Ha).
  - left. reflexivity.
  - exists r. split; [exact Hi|]. split; [exact Hd|exact Ha].
Defined.

(** C6. The body [createUser] posts to [/users] has [active] set to [true]
    whatever the password is, carries the handle under key [1] of
    [user_fields], and gives the application's user id as the forum
    [username]. *)
Theorem createUser_body (E : env) (st : state)
    (name userId handle email password : value) :
  wf E st ->
  exists r (fields user_fields : gmap string value),
    issued E (CreateUser name userId handle email password) st = [r] /\
    r_method r = POST /\
    r_url r = "/users" /\
    r_data r = Json (VObj fields) /\
    fields !! "active" = Some (VBool true) /\
    fields !! "password" = Some password /\
    fields !! "username" = Some userId /\
    fields !! "user_fields" = Some (VObj user_fields) /\
    user_fields = {[ "1" := handle ]} /\
    user_fields !! "1" = Some handle.
Proof.
  intros Hwf.
  eexists. eexists. eexists. split; [exec st Hwf; reflexivity|].
  cbn [r_method r_url r_data dispatched].
  repeat (split; [reflexivity|]). reflexivity.
Qed.

(** The theorem of C6 at a user created without a password. *)
Lemma createUser_body_witness :
  exists r fields,
    issued (sample_env 200)
      (CreateUser (VStr "Ada L") (VNum 40135) (VStr "ada") (VStr "ada@x.io")
         VUndefined) initial_state = [r] /\
    r_data r = Json (VObj fields) /\
    fields !! "active" = Some (VBool true) /\
    fields !! "username" = Some (VNum 40135).
Proof.
  destruct (createUser_body (sample_env 200) initial_state
              (VStr "Ada L") (VNum 40135) (VStr "ada") (VStr "ada@x.io")
              VUndefined)
    as (r & fields & uf & Hi & _ & _ & Hd & Ha & _ & Hu & _).
  - left. reflexivity.
  - exists r, fields. split; [exact Hi|]. split; [exact Hd|].
    split; [exact Ha|exact Hu].
Defined.

(** C7, as amended. When its call fails upstream, an operation hands back
    a rejected result carrying the error, after a single request and a
    single error entry of the shared interceptor; beyond that entry,
    [createPrivatePost] logs two error entries, its fixed text and then the
    error, and every other operation logs none. *)
Theorem failure_rejects_and_logs (E : env) (st : state) (o : op) :
  wf E st ->
  upstream_fails E o st ->
  exists err,
    fst (run E o st) = Rejected err /\
    length (issued E o st) = 1%nat /\
    length (interceptor_errors E o st) = 1%nat /\
    extra_errors E o st =
      match o with
      | CreatePrivatePost _ _ _ _ =>
          [{| lvl := Error; args := [LText "Error creating topic"] |};
           {| lvl := Error; args := [LError err] |}]
      | _ => []
      end.
Proof.
  intros Hwf Hfail.
  destruct (run_errors E o st Hwf) as (r & wrap & Hi & Hres & Hlog).
  unfold upstream_fails in Hfail. rewrite Hi in Hfail.
  apply List.Forall_inv in Hfail.
  unfold interceptor_errors, extra_errors. rewrite Hi, Hres, Hlog.
  destruct (settle r (upstream E r)) as [res|err]; [discriminate|].
  exists err. split; [reflexivity|]. split; [reflexivity|].
  destruct o; split; reflexivity.
Qed.

(** C7 fails as stated: on a reply with status 500, [createPrivatePost]
    logs two error entries beyond the interceptor's, not one. *)
Lemma createPrivatePost_logs_two_errors :
  let o := CreatePrivatePost (VStr "Kickoff") (VStr "<p>hi</p>")
             (VStr "alice,bob") (VStr "alice") in
  upstream_fails (sample_env 500) o initial_state /\
  is_rejected (fst (run (sample_env 500) o initial_state)) = true /\
  length (extra_errors (sample_env 500) o initial_state) = 2%nat /\
  length (extra_errors (sample_env 500) o initial_state) <> 1%nat.
Proof.
  cbv zeta. split; [|split; [|split]].
  - unfold upstream_fails.
    rewrite createPrivatePost_issued by apply wf_initial.
    constructor; [reflexivity|constructor].
  - vm_compute. reflexivity.
  - vm_compute. reflexivity.
  - vm_compute. discriminate.
Qed.

(** The theorem of C7 at [getPost] against a forum answering 500. *)
Lemma failure_rejects_and_logs_witness :
  exists err,
    fst (run (sample_env 500) (GetPost (VStr "alice") 4) initial_state)
    = Rejected err /\
    extra_errors (sample_env 500) (GetPost (VStr "alice") 4) initial_state = [].
Proof.
  destruct (failure_rejects_and_logs (sample_env 500) initial_state
              (GetPost (VStr "alice") 4)) as (err & Hr & _ & _ & He).
  - left. reflexivity.
  - unfold upstream_fails. vm_compute. constructor; [reflexivity|constructor].
  - exists err. split; [exact Hr|exact He].
Defined.

(** C8, as amended. [removeAccess] names the literal user [system] as
    acting user, for every user name and topic and with no administrator
    check; that is the configured system username exactly when the
    configuration calls the system user [system]. *)
Theorem removeAccess_acts_as_literal_system (E : env) (st : state)
    (userName : value) (topicId : Z) :
  wf E st ->
  acts_as E (RemoveAccess userName topicId) st (VStr "system") /\
  (acts_as E (RemoveAccess userName topicId) st
     (VStr (DISCOURSE_SYSTEM_USERNAME E))
   <-> discourseSystemUsername E = "system").
Proof.
  intros Hwf.
  assert (H : forall who, acts_as E (RemoveAccess userName topicId) st who
                          <-> who = VStr "system").
  { intros who. exec st Hwf. settle_acting.
    split; [intros [= <-]|intros ->]; reflexivity. }
  split; [apply H; reflexivity|].
  rewrite H. unfold DISCOURSE_SYSTEM_USERNAME.
  split; [intros [= ->]|intros ->]; reflexivity.
Qed.

(** C8 fails as stated: where the configured system username is
    [forum-bot], [removeAccess] acts as [system], not as the configured
    system user. *)
Lemma removeAccess_not_configured_system :
  DISCOURSE_SYSTEM_USERNAME (sample_env 200) = "forum-bot" /\
  acts_as (sample_env 200) (RemoveAccess (VStr "alice") 7) initial_state
    (VStr "system") /\
  ~ acts_as (sample_env 200) (RemoveAccess (VStr "alice") 7) initial_state
      (VStr (DISCOURSE_SYSTEM_USERNAME (sample_env 200))).
Proof.
  assert (H : acts_as (sample_env 200) (RemoveAccess (VStr "alice") 7)
                initial_state (VStr "system"))
    by (vm_compute; reflexivity).
  split; [reflexivity|]. split; [exact H|].
  unfold acts_as in *. rewrite H. discriminate.
Qed.

(** The theorem of C8 at a concrete removal. *)
Lemma removeAccess_acts_as_literal_system_witness :
  acts_as (sample_env 200) (RemoveAccess (VStr "alice") 7) initial_state
    (VStr "system").
Proof.
  destruct (removeAccess_acts_as_literal_system (sample_env 200) initial_state
              (VStr "alice") 7) as (Hsystem & _).
  - left. reflexivity.
  - exact Hsystem.
Defined.

(** C9. The module starts without a client; the first call of [getClient]
    creates it from the configuration (base url, API key, system username
    as default acting user), every later call returns the client it finds
    and changes nothing, and no operation replaces or alters the client
    once there is one. *)
Theorem client_created_once (E : env) :
  client initial_state = None /\
  (forall st, client st = None ->
     fst (getClient E st) = configured_client E /\
     client (snd (getClient E st)) = Some (configured_client E)) /\
  (forall st c, client st = Some c -> getClient E st = (c, st)) /\
  (forall o st, client st = None ->
     client (snd (run E o st)) = Some (configured_client E)) /\
  (forall o st c, client st = Some c -> client (snd (run E o st)) = Some c) /\
  (forall ops, ops <> [] ->
     client (run_all E ops initial_state) = Some (configured_client E)) /\
  baseURL (configured_client E) = discourseURL E /\
  default_params (configured_client E) !! "api_key" = Some (discourseApiKey E) /\
  default_params (configured_client E) !! "api_username"
  = Some (VStr (DISCOURSE_SYSTEM_USERNAME E)).
Proof.
  split; [reflexivity|].
  split; [intros st H; unfold getClient; rewrite H; split; reflexivity|].
  split; [intros st c H; unfold getClient; rewrite H; reflexivity|].
  split; [intros o st H; apply run_sets_client; left; exact H|].
  split; [intros o st c H; apply run_keeps_client, H|].
  split; [intros ops H; apply run_all_client; [apply wf_initial|exact H]|].
  split; [reflexivity|].
  split; [reflexivity|].
  unfold configured_client. cbn [default_params].
  rewrite lookup_insert_ne by discriminate. apply lookup_singleton_eq.
Qed.

(** C10. [createPrivatePost] acts as the system user when the owner is
    absent or falsy, and when the owner is an administrator; the owner
    is named as acting user only when it is truthy and no administrator. *)
Theorem createPrivatePost_owner (E : env) (st : state)
    (title post users owner : value) :
  wf E st ->
  let o := CreatePrivatePost title post users owner in
  let system := VStr (DISCOURSE_SYSTEM_USERNAME E) in
  (truthy owner = false -> acts_as E o st system) /\
  (truthy owner = true -> isDiscourseAdmin E owner = true ->
   acts_as E o st system) /\
  (truthy owner = true -> isDiscourseAdmin E owner = false ->
   acts_as E o st owner) /\
  (forall who, acts_as E o st who -> who <> system ->
   who = owner /\ truthy owner = true /\ isDiscourseAdmin E owner = false).
Proof.
  intros Hwf o system. subst o system.
  repeat split.
  - intros Hf. apply createPrivatePost_acts; [assumption|].
    rewrite Hf. reflexivity.
  - intros Ht Ha. apply createPrivatePost_acts; [assumption|].
    rewrite Ht, Ha. reflexivity.
  - intros Ht Ha. apply createPrivatePost_acts; [assumption|].
    rewrite Ht, Ha. reflexivity.
  - apply createPrivatePost_acts in H; [|assumption].
    destruct (truthy owner), (isDiscourseAdmin E owner); simpl in H;
      congruence.
  - apply createPrivatePost_acts in H; [|assumption].
    destruct (truthy owner); [reflexivity|]. simpl in H. congruence.
  - apply createPrivatePost_acts in H; [|assumption].
    destruct (truthy owner), (isDiscourseAdmin E owner); simpl in H;
      congruence.
Qed.

(** The theorem of C10 at an empty owner. *)
Lemma createPrivatePost_owner_witness :
  acts_as (sample_env 200)
    (CreatePrivatePost (VStr "Kickoff") (VStr "hi") (VStr "bob") (VStr ""))
    initial_state (VStr "forum-bot").
Proof.
  destruct (createPrivatePost_owner (sample_env 200) initial_state
              (VStr "Kickoff") (VStr "hi") (VStr "bob") (VStr ""))
    as (Hfalsy & _).
  - left. reflexivity.
  - apply Hfalsy. reflexivity.
Defined.

(** * Further properties of the code *)

(** ** Access, trust level and upload *)



(** X2. [changeTrustLevel] passes no acting user: its [PUT] to the user's
    trust level goes out under the client's default, the system user, with
    the user id and the level in the body. *)
Theorem changeTrustLevel_request (E : env) (st : state) (userId : Z)
    (level : value) :
  wf E st ->
  acts_as E (ChangeTrustLevel userId level) st
    (VStr (DISCOURSE_SYSTEM_USERNAME E)) /\
  exists r,
    issued E (ChangeTrustLevel userId level) st = [r] /\
    r_method r = PUT /\
    r_url r = "/admin/users/" ++ show_int userId ++ "/trust_level" /\
    r_data r = Json (VObj {[ "user_id" := VNum userId; "level" := level ]}).
Proof.
  intros Hwf. split.
  - exec st Hwf. settle_acting. reflexivity.
  - eexists. split; [exec st Hwf; reflexivity|]. repeat split.
Qed.

Lemma changeTrustLevel_request_witness :
  acts_as (sample_env 200) (ChangeTrustLevel 42 (VNum 2)) initial_state
    (VStr "forum-bot").
Proof.
  apply (changeTrustLevel_request (sample_env 200) initial_state 42 (VNum 2)).
  left. reflexivity.
Defined.

(** X3. [uploadImage] posts a multipart body whose boundary is the one its
    [Content-Type] header announces; the body holds [type=composer],
    [synchronous=true] and the file, streamed from its path under its
    original name and declared MIME type. *)
Theorem uploadImage_multipart (E : env) (st : state) (username : value)
    (f : file) :
  wf E st ->
  exists r boundary,
    issued E (UploadImage username f) st = [r] /\
    r_method r = POST /\
    r_url r = "/uploads.json" /\
    r_data r = Multipart boundary
                 [Field "type" "composer";
                  Field "synchronous" "true";
                  FileStream "file" (path f) (originalname f) (mimetype f)] /\
    r_headers r !! "Content-Type"
    = Some ("multipart/form-data; boundary=" ++ boundary) /\
    boundary = getBoundary E f.
Proof.
  intros Hwf. eexists. eexists.
  split; [exec st Hwf; reflexivity|].
  cbn [r_method r_url r_data r_headers dispatched cfg_headers default].
  split; [reflexivity|]. split; [reflexivity|]. split; [reflexivity|].
  split; [apply lookup_singleton_eq|reflexivity].
Qed.

Lemma uploadImage_multipart_witness :
  exists r,
    issued (sample_env 200)
      (UploadImage (VStr "alice")
         {| path := VStr "/tmp/u1"; originalname := VStr "cat.png";
            mimetype := VStr "image/png" |}) initial_state = [r] /\
    r_headers r !! "Content-Type"
    = Some "multipart/form-data; boundary=--------b0und".
Proof.
  destruct (uploadImage_multipart (sample_env 200) initial_state (VStr "alice")
              {| path := VStr "/tmp/u1"; originalname := VStr "cat.png";
                 mimetype := VStr "image/png" |})
    as (r & b & Hi & _ & _ & _ & Hh & Hb).
  - left. reflexivity.
  - exists r. split; [exact Hi|]. rewrite Hh, Hb. reflexivity.
Defined.

(** ** What every operation does *)

Lemma api_key_given (E : env) m u d h v :
  r_params (dispatched E m u d {| cfg_params := Some {[ "api_username" := v ]};
                                  cfg_headers := h |}) !! "api_key"
  = Some (discourseApiKey E).
Proof.
  unfold dispatched, merge_params, configured_client.
  cbn [r_params cfg_params default_params].
  rewrite lookup_union_r by (apply lookup_singleton_ne; discriminate).
  apply lookup_insert_eq.
Qed.




(** The whole of a run from a well-formed state: the request, the way the
    promise settles and the log, where only debug entries come before the
    interceptor's. *)
Lemma run_outcome (E : env) (st : state) (o : op) :
  wf E st ->
  exists r pre,
    issued E o st = [r] /\
    fst (run E o st) = then_ (settle r (upstream E r)) (resolution o) /\
    logged E o st
    = (pre ++ interceptor_entry (settle r (upstream E r))
           :: (if is_createPrivatePost o
               then handler_entries (settle r (upstream E r)) else []))%list /\
    Forall (fun e => lvl e = Debug /\ logs_error_object e = false
                     /\ interceptor_text e = false) pre.
Proof.
  intros Hwf.
  destruct o; cbn [is_createPrivatePost];
    try (unfold issued, logged, run, as_response, grantAccess; cbv zeta;
         exec st Hwf; rewrite ?then_then;
         eexists;
         lazymatch goal with
         | |- context [ ([?d] ++ [interceptor_entry _])%list ] => exists [d]
         | |- _ => exists []
         end;
         (split; [reflexivity|]); (split; [reflexivity|]);
         (split; [reflexivity|]); repeat constructor).
  destruct st as [c l s]. unfold issued, logged, run, as_response, bind.
  rewrite (createPrivatePost_run _ _ _ _ _ _ _ _ Hwf).
  cbn [fst snd sent log ret]. rewrite !drop_app_length.
  eexists. exists []. repeat split; first [reflexivity|constructor].
Qed.


Lemma filter_none {A} (f : A -> bool) (l : list A) :
  Forall (fun a => f a = false) l -> List.filter f l = [].
Proof.
  induction 1 as [|a l Ha _ IH]; cbn [List.filter]; [reflexivity|].
  rewrite Ha. exact IH.
Qed.

Lemma settle_rejected_config (r : request) (a : reply) (err : error) :
  settle r a = Rejected err -> e_config err = r.
Proof.
  unfold settle. destruct a as [code payload|].
  - destruct (validateStatus code); [discriminate|]. intros [= <-]. reflexivity.
  - intros [= <-]. reflexivity.
Qed.

Lemma settle_fulfilled (r : request) (a : reply) (res : response) :
  settle r a = Fulfilled res ->
  a = Reply (status res) (data res) /\ config res = r /\
  validateStatus (status res) = true.
Proof.
  unfold settle. destruct a as [code payload|]; [|discriminate].
  destruct (validateStatus code) eqn:Hv; [|discriminate].
  intros [= <-]. cbn [status data config]. auto.
Qed.

(** X5. When its call succeeds upstream, an operation resolves: [getUser] and
    [getTopic] with the payload of the forum's answer, the others with the
    response; it logs no error, and one info entry, the interceptor's
    [SUCCESS] with the url and the status. *)
Theorem success_resolves_and_logs (E : env) (st : state) (o : op) :
  wf E st ->
  upstream_succeeds E o st ->
  exists r res,
    issued E o st = [r] /\
    upstream E r = Reply (status res) (data res) /\
    config res = r /\
    validateStatus (status res) = true /\
    fst (run E o st) = Fulfilled (resolution o res) /\
    List.filter is_error (logged E o st) = [] /\
    List.filter is_info (logged E o st)
    = [{| lvl := Info; args := [LText "SUCCESS"; LValue (pick_success res)] |}].
Proof.
  intros Hwf Hok.
  destruct (run_outcome E st o Hwf) as (r & pre & Hi & Hres & Hlog & Hpre).
  unfold upstream_succeeds in Hok. rewrite Hi in Hok.
  apply List.Forall_inv in Hok.
  destruct (settle r (upstream E r)) as [res|err] eqn:Hs; [|discriminate].
  destruct (settle_fulfilled _ _ _ Hs) as (Hup & Hc & Hv).
  exists r, res. rewrite Hres, Hlog, !List.filter_app.
  rewrite (filter_none is_error pre), (filter_none is_info pre).
  - repeat (split; [assumption || reflexivity|]).
    destruct (is_createPrivatePost o); split; reflexivity.
  - revert Hpre. apply List.Forall_impl. intros e (Hl & _).
    unfold is_info. rewrite Hl. reflexivity.
  - revert Hpre. apply List.Forall_impl. intros e (Hl & _).
    unfold is_error. rewrite Hl. reflexivity.
Qed.

Lemma success_resolves_and_logs_witness :
  exists res,
    fst (run (sample_env 204) (GetUser (VStr "alice")) initial_state)
    = Fulfilled (Payload (data res)) /\
    status res = 204.
Proof.
  destruct (success_resolves_and_logs (sample_env 204) initial_state
              (GetUser (VStr "alice")))
    as (r & res & _ & Hup & _ & _ & Hf & _).
  - left. reflexivity.
  - unfold upstream_succeeds. vm_compute. constructor; [reflexivity|constructor].
  - exists res. split; [exact Hf|].
    cbn [sample_env upstream] in Hup. injection Hup as Hcode _.
    symmetry. exact Hcode.
Defined.

(** X6. Only the rejection handler of [createPrivatePost] writes an error
    object to the log, and with it the request's parameters, the API key
    among them; no other operation, and no successful call, logs one. *)
Theorem only_createPrivatePost_logs_error_object (E : env) (st : state) (o : op) :
  wf E st ->
  (is_createPrivatePost o = false ->
   List.filter logs_error_object (logged E o st) = []) /\
  (is_createPrivatePost o = true -> upstream_succeeds E o st ->
   List.filter logs_error_object (logged E o st) = []) /\
  (is_createPrivatePost o = true -> upstream_fails E o st ->
   exists err,
     List.filter logs_error_object (logged E o st)
     = [{| lvl := Error; args := [LError err] |}] /\
     e_config err :: nil = issued E o st /\
     r_params (e_config err) !! "api_key" = Some (discourseApiKey E)).
Proof.
  intros Hwf.
  destruct (run_outcome E st o Hwf) as (r & pre & Hi & _ & Hlog & Hpre).
  assert (Hnone : List.filter logs_error_object pre = []).
  { apply filter_none. revert Hpre. apply List.Forall_impl. tauto. }
  rewrite Hlog, List.filter_app, Hnone. cbn [app].
  split; [|split].
  - intros ->. destruct (settle r (upstream E r)); reflexivity.
  - intros -> Hok. unfold upstream_succeeds in Hok. rewrite Hi in Hok.
    apply List.Forall_inv in Hok.
    destruct (settle r (upstream E r)); [reflexivity|discriminate].
  - intros Hcpp Hfail. rewrite Hcpp.
    unfold upstream_fails in Hfail. rewrite Hi in Hfail.
    apply List.Forall_inv in Hfail.
    destruct (settle r (upstream E r)) as [res|err] eqn:Hs; [discriminate|].
    exists err. rewrite (settle_rejected_config _ _ _ Hs).
    split; [reflexivity|]. split; [symmetry; exact Hi|].
    destruct o; try discriminate.
    rewrite (createPrivatePost_issued E _ _ _ _ _ Hwf) in Hi.
    injection Hi as <-. apply api_key_given.
Qed.

Lemma only_createPrivatePost_logs_error_object_witness :
  List.filter logs_error_object
    (logged (sample_env 500) (DeletePost (VStr "alice") 9) initial_state) = [] /\
  length (List.filter logs_error_object
            (logged (sample_env 500)
               (CreatePrivatePost (VStr "t") (VStr "p") (VStr "bob") (VStr "alice"))
               initial_state)) = 1%nat.
Proof.
  split.
  - destruct (only_createPrivatePost_logs_error_object (sample_env 500)
                initial_state (DeletePost (VStr "alice") 9)) as (Hother & _).
    + left. reflexivity.
    + apply Hother. reflexivity.
  - destruct (only_createPrivatePost_logs_error_object (sample_env 500)
                initial_state
                (CreatePrivatePost (VStr "t") (VStr "p") (VStr "bob") (VStr "alice")))
      as (_ & _ & Hfail).
    + left. reflexivity.
    + destruct Hfail as (err & -> & _); [reflexivity| |reflexivity].
      unfold upstream_fails. rewrite createPrivatePost_issued by apply wf_initial.
      constructor; [reflexivity|constructor].
Defined.

(** ** Sequences of calls *)









(** ** Urls and bodies *)



(** X11. The url of [getPosts] asks for [include_raw=1] and then for the post
    ids, one entry each; with no post id the separator is still written,
    which leaves the url ending in [&] and the query with an empty last
    entry. *)
Theorem getPosts_url_entries (E : env) (st : state) (username : value)
    (topicId : Z) (postIds : list Z) :
  wf E st ->
  exists r,
    issued E (GetPosts username topicId postIds) st = [r] /\
    r_method r = GET /\
    url_entries (r_url r)
    = ("include_raw", "1")
      :: match postIds with
         | [] => [("", "")]
         | _ => List.map (fun postId => ("post_ids%5B%5D", show_int postId)) postIds
         end /\
    (postIds = [] ->
     r_url r = "/t/" ++ show_int topicId ++ "/posts.json?include_raw=1&").
Proof.
  intros Hwf.
  eexists. split; [exec st Hwf; reflexivity|].
  split; [reflexivity|]. cbn [r_url dispatched]. split.
  - rewrite (url_entries_id "/t/") by reflexivity.
    cbn [query_part String.append Ascii.eqb Bool.eqb].
    rewrite postIdsFilter_loop_concat. unfold form_entries.
    cbn [String.append].
    change (String "i" (String "n" (String "c" (String "l" (String "u"
             (String "d" (String "e" (String "_" (String "r" (String "a"
             (String "w" (String "=" (String "1" (String "&" ?x))))))))))))))
      with ("include_raw=1" ++ String "&" x).
    rewrite split_on_app by reflexivity.
    destruct postIds as [|a l]; [reflexivity|].
    rewrite split_on_concat.
    + cbn [List.map]. f_equal. rewrite cut_post_id_entry. f_equal.
      rewrite List.map_map. apply List.map_ext. intros b.
      apply cut_post_id_entry.
    + discriminate.
    + apply List.Forall_map, List.Forall_forall. intros x _.
      apply post_id_entry_free.
  - intros ->. reflexivity.
Qed.

Lemma getPosts_url_entries_witness :
  exists r,
    issued (sample_env 200) (GetPosts (VStr "alice") 7 []) initial_state = [r] /\
    r_url r = "/t/7/posts.json?include_raw=1&" /\
    url_entries (r_url r) = [("include_raw", "1"); ("", "")].
Proof.
  destruct (getPosts_url_entries (sample_env 200) initial_state (VStr "alice") 7 [])
    as (r & Hi & _ & He & Hu).
  - left. reflexivity.
  - exists r. split; [exact Hi|]. split; [apply Hu; reflexivity|exact He].
Defined.

Lemma show_int_inj (a b : Z) : show_int a = show_int b -> a = b.
Proof.
  assert (Hnil : forall n, Z.to_int n <> Decimal.Pos Decimal.Nil
                           /\ Z.to_int n <> Decimal.Neg Decimal.Nil).
  { intros n. split; intros H; pose proof (f_equal Z.of_int H) as H0;
      rewrite DecimalZ.of_to in H0; subst n; discriminate H. }
  unfold show_int. intros H.
  apply (f_equal NilZero.int_of_string) in H.
  rewrite !NilZero.isi in H by apply Hnil.
  injection H as H. apply DecimalZ.to_int_inj, H.
Qed.

Lemma decode_head_encode (c : ascii) (t : string) :
  decode_head (encode_byte c ++ t) = Some (c, t).
Proof. destruct c as [[] [] [] [] [] [] [] []]; reflexivity. Qed.

Lemma encodeURIComponent_inj (a b : string) :
  encodeURIComponent a = encodeURIComponent b -> a = b.
Proof.
  revert b. induction a as [|x a IH]; intros [|y b]; cbn [encodeURIComponent];
    intros H; try reflexivity;
    apply (f_equal decode_head) in H;
    rewrite ?decode_head_encode in H; try discriminate.
  injection H as -> H. f_equal. apply IH, H.
Qed.

Lemma createPost_issued_entries (E : env) (st : state) (username : value)
    (post : string) (discourseTopicId : Z) (responseTo : value) :
  wf E st ->
  (truthy responseTo = true ->
   str_all (is_not "&") (to_string responseTo) = true) ->
  exists r,
    issued E (CreatePost username post discourseTopicId responseTo) st = [r] /\
    r_method r = POST /\
    r_url r = "/posts" /\
    body_entries r
    = (("topic_id", show_int discourseTopicId)
       :: ("raw", encodeURIComponent post)
       :: (if truthy responseTo
           then [("reply_to_post_number", to_string responseTo)] else []))%list.
Proof.
  intros Hwf Hreply.
  eexists. split; [exec st Hwf; reflexivity|].
  split; [reflexivity|]. split; [reflexivity|].
  unfold body_entries. cbn [r_data dispatched].
  destruct (truthy responseTo).
  - apply createPost_entries_reply, Hreply. reflexivity.
  - apply createPost_entries_plain.
Qed.

(** X12. Whatever the post text holds, separators included, the body of
    [createPost] has the fields [topic_id] and [raw] and, for a truthy
    [responseTo], [reply_to_post_number], and no other: the text cannot add
    or replace a field. *)
Theorem createPost_fields (E : env) (st : state) (username : value)
    (post : string) (discourseTopicId : Z) (responseTo : value) :
  wf E st ->
  (truthy responseTo = true ->
   str_all (is_not "&") (to_string responseTo) = true) ->
  exists r,
    issued E (CreatePost username post discourseTopicId responseTo) st = [r] /\
    r_method r = POST /\
    r_url r = "/posts" /\
    body_entries r
    = (("topic_id", show_int discourseTopicId)
       :: ("raw", encodeURIComponent post)
       :: (if truthy responseTo
           then [("reply_to_post_number", to_string responseTo)] else []))%list.
Proof.
  intros Hwf Hreply.
  destruct (createPost_issued_entries E st username post discourseTopicId
              responseTo Hwf Hreply) as (r & Hi & Hm & Hu & Hb).
  exists r. auto.
Qed.

Lemma createPost_fields_witness :
  exists r,
    issued (sample_env 200)
      (CreatePost (VStr "alice") "x&reply_to_post_number=9" 7 VUndefined)
      initial_state = [r] /\
    body_entries r
    = [("topic_id", "7"); ("raw", "x%26reply_to_post_number%3D9")].
Proof.
  destruct (createPost_fields (sample_env 200) initial_state (VStr "alice")
              "x&reply_to_post_number=9" 7 VUndefined) as (r & Hi & _ & _ & Hb).
  - left. reflexivity.
  - discriminate.
  - exists r. split; [exact Hi|exact Hb].
Defined.

(** X13. The body of [createPost] tells its arguments apart: two calls whose
    [responseTo] is falsy or a number, and whose bodies are equal, were made
    for the same topic, with the same post text and the same reply. *)
Theorem createPost_body_determines_arguments (E : env) (st st' : state)
    (username username' : value) (post post' : string) (topicId topicId' : Z)
    (responseTo responseTo' : value) :
  wf E st -> wf E st' ->
  (truthy responseTo = true -> exists n, responseTo = VNum n) ->
  (truthy responseTo' = true -> exists n, responseTo' = VNum n) ->
  List.map r_data (issued E (CreatePost username post topicId responseTo) st)
  = List.map r_data (issued E (CreatePost username' post' topicId' responseTo') st') ->
  topicId = topicId' /\ post = post' /\
  truthy responseTo = truthy responseTo' /\
  (truthy responseTo = true -> responseTo = responseTo').
Proof.
  intros Hwf Hwf' Hn Hn' Hbody.
  assert (Hfree : forall v, (truthy v = true -> exists n, v = VNum n) ->
                  truthy v = true -> str_all (is_not "&") (to_string v) = true).
  { intros v Hv Ht. destruct (Hv Ht) as (n & ->). apply show_int_free. }
  destruct (createPost_issued_entries E st username post topicId responseTo Hwf
              (Hfree _ Hn)) as (r & Hi & _ & _ & Hb).
  destruct (createPost_issued_entries E st' username' post' topicId'
              responseTo' Hwf' (Hfree _ Hn')) as (r' & Hi' & _ & _ & Hb').
  rewrite Hi, Hi' in Hbody. injection Hbody as Hdata.
  unfold body_entries in Hb, Hb'. rewrite Hdata, Hb' in Hb.
  injection Hb as Ht Hp Hr.
  apply show_int_inj in Ht. apply encodeURIComponent_inj in Hp.
  split; [auto|]. split; [auto|].
  destruct (truthy responseTo) eqn:H1, (truthy responseTo') eqn:H2;
    try discriminate; split; try reflexivity; try discriminate.
  intros _. destruct (Hn eq_refl) as (n & ->), (Hn' eq_refl) as (n' & ->).
  cbn [to_string] in Hr. injection Hr as Hr. apply show_int_inj in Hr.
  congruence.
Qed.

Lemma createPost_body_determines_arguments_witness :
  7 = 7 /\ "hi" = "hi" /\
  truthy VUndefined = truthy VNull /\
  (truthy VUndefined = true -> VUndefined = VNull).
Proof.
  apply (createPost_body_determines_arguments (sample_env 200)
           initial_state initial_state (VStr "alice") (VStr "bob")
           "hi" "hi" 7 7 VUndefined VNull).
  - left. reflexivity.
  - left. reflexivity.
  - intros H. discriminate H.
  - intros H. discriminate H.
  - vm_compute. reflexivity.
Defined.

(** ** Acting users, beyond the administrators *)

Lemma delete_acts_as_system_witness :
  acts_as (sample_env 200) (DeleteTopic (VStr "carol") 12) initial_state
    (VStr "forum-bot") /\
  acts_as (sample_env 200) (DeletePost (VStr "carol") 12) initial_state
    (VStr "forum-bot").
Proof.
  apply (delete_acts_as_system (sample_env 200) initial_state (VStr "carol") 12).
  left. reflexivity.
Defined.

Lemma non_admin_acts_as_username_witness :
  acts_as (sample_env 200) (UpdateTopic (VStr "carol") 12 (VStr "New title"))
    initial_state (VStr "carol").
Proof.
  apply (non_admin_acts_as_username (sample_env 200) initial_state
           (UpdateTopic (VStr "carol") 12 (VStr "New title")) (VStr "carol")).
  - left. reflexivity.
  - reflexivity.
  - reflexivity.
Defined.

(** ** The logger's name *)

Lemma lower_char_idempotent (c : ascii) :
  lower_char (lower_char c) = lower_char c.
Proof. destruct c as [[] [] [] [] [] [] [] []]; vm_compute; reflexivity. Qed.

Lemma toLowerCase_idempotent (s : string) :
  toLowerCase (toLowerCase s) = toLowerCase s.
Proof.
  induction s as [|c s IH]; cbn [toLowerCase]; [reflexivity|].
  rewrite lower_char_idempotent, IH. reflexivity.
Qed.

Lemma truthy_toLowerCase (s : string) :
  truthy (VStr (toLowerCase s)) = truthy (VStr s).
Proof. destruct s; reflexivity. Qed.

(** X16. The logger is named [tc-message-service] alone exactly when
    [ENVIRONMENT] is unset or empty; otherwise the name gets one suffix,
    chosen without regard to letter case: [-dev] for [development], [-qa]
    for [qa], and [-prod] for [production] and for every other value. *)
Theorem appName_by_environment (ENVIRONMENT : option string) :
  (appName ENVIRONMENT = "tc-message-service"
   <-> ENVIRONMENT = None \/ ENVIRONMENT = Some "") /\
  (forall e, ENVIRONMENT = Some e -> e <> "" ->
     appName (Some (toLowerCase e)) = appName (Some e) /\
     (appName (Some e) = "tc-message-service-dev"
      <-> toLowerCase e = "development") /\
     (appName (Some e) = "tc-message-service-qa"
      <-> toLowerCase e = "qa") /\
     (appName (Some e) = "tc-message-service-prod"
      <-> toLowerCase e <> "development" /\ toLowerCase e <> "qa")).
Proof.
  split.
  - destruct ENVIRONMENT as [e|]; [|split; auto].
    unfold appName. destruct e as [|c e]; cbn [truthy String.eqb negb].
    + split; auto.
    + split; [|intros [H|H]; discriminate H].
      repeat (destruct (String.eqb _ _)); discriminate.
  - intros e _ Hne. unfold appName.
    rewrite truthy_toLowerCase, toLowerCase_idempotent.
    split; [reflexivity|].
    destruct e as [|c e]; [congruence|]. cbn [truthy String.eqb negb].
    destruct (String.eqb_spec (toLowerCase (String c e)) "development") as [->|Hd].
    { repeat split; intros; try reflexivity; try discriminate; tauto. }
    destruct (String.eqb_spec (toLowerCase (String c e)) "qa") as [->|Hq].
    { repeat split; intros; try reflexivity; try discriminate; tauto. }
    destruct (String.eqb _ "production");
      repeat split; intros; try reflexivity; try discriminate;
      try congruence; tauto.
Qed.

(** ** Recipients of a private post *)

(** X17. [createPrivatePost] posts a [private_message] whose recipients, title
    and text are the arguments as given: the administrator check is made of
    the owner alone, never of the recipients. *)
Theorem createPrivatePost_recipients_verbatim (E : env) (st : state)
    (title post users owner : value) :
  wf E st ->
  exists r (fields : gmap string value),
    issued E (CreatePrivatePost title post users owner) st = [r] /\
    r_method r = POST /\
    r_url r = "/posts" /\
    r_data r = Json (VObj fields) /\
    fields !! "archetype" = Some (VStr "private_message") /\
    fields !! "target_usernames" = Some users /\
    fields !! "title" = Some title /\
    fields !! "raw" = Some post.
Proof.
  intros Hwf. eexists. eexists.
  split; [apply createPrivatePost_issued, Hwf|].
  cbn [r_method r_url r_data dispatched createPrivatePost_body].
  repeat (split; [reflexivity|]). reflexivity.
Qed.

Lemma createPrivatePost_recipients_verbatim_witness :
  exists r fields,
    issued (sample_env 200)
      (CreatePrivatePost (VStr "Kickoff") (VStr "hi") (VStr "root1,bob")
         (VStr "alice")) initial_state = [r] /\
    r_data r = Json (VObj fields) /\
    fields !! "target_usernames" = Some (VStr "root1,bob").
Proof.
  destruct (createPrivatePost_recipients_verbatim (sample_env 200) initial_state
              (VStr "Kickoff") (VStr "hi") (VStr "root1,bob") (VStr "alice"))
    as (r & fields & Hi & _ & _ & Hd & _ & Hu & _).
  - left. reflexivity.
  - exists r, fields. split; [exact Hi|]. split; [exact Hd|exact Hu].
Defined.
